(** * exomol2lida: the ExoMol line reader, the molecule input resolver and
      the state-lumping engine, embedded in Rocq

    The development follows the layout of the Python package:

    - [Utils]          : [exomol2lida/exomol/utils.py]
    - [ParseDef]       : [exomol2lida/exomol/parse_def.py]
    - [ReadInputs]     : [exomol2lida/read_inputs.py]
    - [ProcessDataset] : [exomol2lida/exomol/process_dataset.py]

    Conventions of the embedding.

    - A Python list that is mutated in place ([lines], popped by the line
      reader) is passed in and returned; so is the dictionary
      [states_map_lumped_to_original], updated by [_process_state_group].
    - Exceptions are values of an error type; a function that may raise
      returns a sum.  Warnings and accesses to the file system are logged.
    - A cell of a [float64] column is an [option Q]: [Some q] is the finite
      number [q], with exact arithmetic, [None] is NaN.
    - A pandas frame or series indexed by the group key is a finite map
      from the key; two series are aligned key by key, as the outer join
      of [lt], [eq] and [add] does on a flat index.
    - What the package takes from outside is a parameter: the built-in
      [int] and [float], pyvalem's [Formula], exomole's [DefParser] and
      [get_num_columns], the directory tree, [EXOMOL_DATA_DIR], the
      chunk sizes of the readers, the rows that [read_csv] finds in a
      file, and the texts behind a path and behind a url.
    - Strings are byte strings, and whitespace is ASCII whitespace. *)

From Stdlib Require Import ZArith QArith Qround Qcanon Lqa.
From Stdlib Require Import String Ascii List DecimalString.
From stdpp Require Import base option list gmap sets strings.

Local Open Scope Z_scope.
Local Open Scope string_scope.
Local Open Scope list_scope.

(* ===================================================================== *)
(** * utils.py *)
(* ===================================================================== *)

Module Utils.

(** ** Python string primitives used by the reader *)

(** [str.isspace] on the ASCII range: TAB, LF, VT, FF, CR, the four
    separators FS GS RS US, and the blank. *)
Definition is_whitespace (c : ascii) : bool :=
  match c with
  | "009" | "010" | "011" | "012" | "013"
  | "028" | "029" | "030" | "031" | " " => true
  | _ => false
  end%char.

Fixpoint lstrip (s : string) : string :=
  match s with
  | String c s' => if is_whitespace c then lstrip s' else s
  | EmptyString => EmptyString
  end.

Definition rstrip (s : string) : string :=
  String.rev (lstrip (String.rev s)).

(** [s.strip()] *)
Definition strip (s : string) : string := rstrip (lstrip s).

(** [s.split('# ')]: the pieces between the non-overlapping occurrences of
    the separator, scanned from the left.  [cur] holds the piece under
    construction, reversed. *)
Fixpoint split_go (s : string) (cur : string) : list string :=
  match s with
  | EmptyString => [String.rev cur]
  | String "#" (String " " rest) => String.rev cur :: split_go rest ""
  | String c s' => split_go s' (String c cur)
  end.

Definition split_hash_space (s : string) : list string := split_go s "".

(** [str(n)] for an [int] *)
Definition str_of_int (n : Z) : string := NilZero.string_of_int (Z.to_int n).

(** Truthiness of a string: [if line:] *)
Definition truthy (s : string) : bool :=
  match s with EmptyString => false | _ => true end.

(** ** Exceptions and values *)

Inductive exn :=
| ExomolLineCommentError (msg : string)
| ExomolLineValueError (msg : string).

(** [str(e)] *)
Definition exn_message (e : exn) : string :=
  match e with
  | ExomolLineCommentError m => m
  | ExomolLineValueError m => m
  end.

(** What [parse_exomol_line] returns: the stripped text, or what
    [val_type] made of it. *)
Inductive pyval :=
| PStr (s : string)
| PInt (n : Z)
| PFloat (q : Q).

(** A [val_type] is a constructor such as [int] or [float]: it yields a
    value or raises [ValueError], here [None]. *)
Definition val_type := string -> option pyval.

(** ** parse_exomol_line *)

(** [msg += f' in {file_name}'] under [if file_name:] *)
Definition in_file (msg : string) (file_name : option string) : string :=
  match file_name with
  | Some f => if truthy f then msg +:+ " in " +:+ f else msg
  | None => msg
  end.

(** The state the call leaves behind and its outcome: the caller's list
    after the pops, the warnings issued, and the value or the exception. *)
Record outcome := Outcome {
  lines_after : list string;
  warned : list string;
  result : exn + pyval
}.

(** The [while True] loop: pop the top line until a non-blank one shows
    up.  [None] stands for the [IndexError] of [pop] on the empty list. *)
Fixpoint pop_line (lines : list string) (n_orig : Z)
    (file_name : option string) (raise_warnings : bool)
    (warns : list string) : list string * list string * option (string * Z) :=
  match lines with
  | [] => ([], warns, None)
  | l :: rest =>
      let line := strip l in
      let line_num := n_orig - Z.of_nat (length rest) in
      if truthy line then (rest, warns, Some (line, line_num))
      else
        pop_line rest n_orig file_name raise_warnings
          (if raise_warnings
           then warns ++ [in_file ("Empty line detected on line "
                                   +:+ str_of_int line_num) file_name]
           else warns)
  end.

(** [comment != expected_comment] *)
Definition comment_differs (comment : string)
    (expected_comment : option string) : bool :=
  match expected_comment with
  | Some c => negb (String.eqb comment c)
  | None => true
  end.

Definition parse_exomol_line (lines : list string) (n_orig : Z)
    (expected_comment : option string) (file_name : option string)
    (vt : option val_type) (raise_warnings : bool) : outcome :=
  match pop_line lines n_orig file_name raise_warnings [] with
  | (lines', warns, None) =>
      Outcome lines' warns
        (inl (ExomolLineValueError (in_file "Run out of lines" file_name)))
  | (lines', warns, Some (line, line_num)) =>
      match split_hash_space line with
      | [val; comment] =>
          let val := strip val in
          let converted :=
            match vt with
            | Some conv => conv val
            | None => Some (PStr val)
            end in
          match converted with
          | None =>
              Outcome lines' warns
                (inl (ExomolLineValueError
                        (in_file ("Unexpected value type detected on line "
                                  +:+ str_of_int line_num) file_name)))
          | Some v =>
              Outcome lines'
                (if comment_differs comment expected_comment && raise_warnings
                 then warns ++ [in_file ("Unexpected comment detected on line "
                                         +:+ str_of_int line_num +:+ "!")
                                  file_name]
                 else warns)
                (inr v)
          end
      | _ =>
          Outcome lines' warns
            (inl (ExomolLineCommentError
                    (in_file ("Unexpected line format detected on line "
                              +:+ str_of_int line_num) file_name)))
      end
  end.

End Utils.

(* ===================================================================== *)
(** * parse_def.py *)
(* ===================================================================== *)

Module ParseDef.

Record Isotope := mkIsotope {
  number : Z;
  element_symbol : string
}.

Record IrreducibleRepresentation := mkIrreducibleRepresentation {
  ir_id : Z;
  ir_label : string;
  nuclear_spin_degeneracy : Z
}.

Record QuantumCase := mkQuantumCase { case_label : string }.

Record Quantum := mkQuantum {
  label : string;
  format : string;
  description : string
}.

(** [ExomolDefBase], field by field *)
Record ExomolDef := mkExomolDef {
  raw_text : string;
  id : string;
  iso_formula : string;
  iso_slug : string;
  dataset_name : string;
  version : Z;
  inchi_key : string;
  isotopes : list Isotope;
  mass : Q;
  symmetry_group : string;
  irreducible_representations : list IrreducibleRepresentation;
  max_temp : Q;
  num_pressure_broadeners : Z;
  dipole_availability : bool;
  num_cross_sections : Z;
  num_k_coefficients : Z;
  lifetime_availability : bool;
  lande_factor_availability : bool;
  num_states : Z;
  quanta_cases : list QuantumCase;
  quanta : list Quantum;
  num_transitions : string;
  num_trans_files : string;
  max_wavenumber : string;
  high_energy_complete : string
}.

Definition get_quanta_labels (d : ExomolDef) : list string :=
  map label (quanta d).

Definition get_states_header_mandatory (d : ExomolDef) : list string :=
  let header := ["i"; "E"; "g_tot"; "J"] in
  let header := if lifetime_availability d then header ++ ["tau"] else header in
  let header := if lande_factor_availability d then header ++ ["g_J"] else header in
  header.

Definition get_states_header (d : ExomolDef) : list string :=
  get_states_header_mandatory d ++ get_quanta_labels d.

(** ** _parse_exomol_def_raw *)

(** What can leave the body of [_parse_exomol_def_raw]: the two line
    errors (caught by its [except] clause), its own error, and the
    built-in exceptions of the conversions made outside [parse_line]. *)
Inductive def_exn :=
| LineError (e : Utils.exn)
| ExomolDefParseError (msg : string)
| PyValueError
| PyIndexError.

(** The body threads the list [lines] (popped by every [parse_line]) and
    the warnings through its calls. *)
Definition M (A : Type) : Type :=
  list string -> list string -> list string * list string * (def_exn + A).

Definition ret {A} (a : A) : M A := fun ls ws => (ls, ws, inr a).
Definition raise {A} (e : def_exn) : M A := fun ls ws => (ls, ws, inl e).
Definition bind {A B} (m : M A) (k : A -> M B) : M B := fun ls ws =>
  match m ls ws with
  | (ls', ws', inr a) => k a ls' ws'
  | (ls', ws', inl e) => (ls', ws', inl e)
  end.

Notation "'do' x <- m ; k" := (bind m (fun x => k))
  (at level 10, x name, m at level 100, k at level 200).

(** [[body(i) for i in range(n)]], in order *)
Fixpoint for_range {A} (n : nat) (i : Z) (body : Z -> M A) : M (list A) :=
  match n with
  | O => ret []
  | S n' =>
      do x <- body i ;
      do xs <- for_range n' (i + 1) body ;
      ret (x :: xs)
  end.

(** [except (ExomolLineValueError, ExomolLineCommentError) as e:
       raise ExomolDefParseError(str(e))] *)
Definition catch_line_errors {A} (m : M A) : M A := fun ls ws =>
  match m ls ws with
  | (ls', ws', inl (LineError e)) =>
      (ls', ws', inl (ExomolDefParseError (Utils.exn_message e)))
  | r => r
  end.

(** [s.split('\n')] *)
Fixpoint split_newline (s : string) (cur : string) : list string :=
  match s with
  | EmptyString => [String.rev cur]
  | String c s' =>
      if Ascii.eqb c "010" then String.rev cur :: split_newline s' ""
      else split_newline s' (String c cur)
  end.

(** [s.split()]: the words between runs of whitespace *)
Fixpoint split_ws (s : string) (cur : option string) : list string :=
  match s with
  | EmptyString => option_list (String.rev <$> cur)
  | String c s' =>
      if Utils.is_whitespace c
      then option_list (String.rev <$> cur) ++ split_ws s' None
      else split_ws s' (Some (String c (default "" cur)))
  end.

Section Parser.

(** The built-in [int] and [float] and pyvalem's [Formula] are taken as
    given: a conversion yields a value or raises [ValueError] ([None]);
    [Formula(s).natoms] yields the atom count or raises
    [FormulaParseError] with a message. *)
Variable py_int : string -> option Z.
Variable py_float : string -> option Q.
Variable formula_natoms : string -> string + Z.

Variable file_name : string.
Variable raise_warnings : bool.
Variable n_orig : Z.

(** The closure [parse_line] over [lines] and [n_orig] *)
Definition parse_line_raw (expected_comment : string)
    (vt : option Utils.val_type) : M Utils.pyval := fun ls ws =>
  let o := Utils.parse_exomol_line ls n_orig (Some expected_comment)
             (Some file_name) vt raise_warnings in
  (Utils.lines_after o, ws ++ Utils.warned o,
   match Utils.result o with
   | inl e => inl (LineError e)
   | inr v => inr v
   end).

Definition as_str (v : Utils.pyval) : string :=
  match v with Utils.PStr s => s | _ => "" end.
Definition as_int (v : Utils.pyval) : Z :=
  match v with Utils.PInt n => n | _ => 0 end.
Definition as_float (v : Utils.pyval) : Q :=
  match v with Utils.PFloat q => q | _ => 0%Q end.

(** [parse_line(c)], [parse_line(c, int)], [parse_line(c, float)] *)
Definition parse_line (c : string) : M string :=
  do v <- parse_line_raw c None ; ret (as_str v).
Definition parse_line_int (c : string) : M Z :=
  do v <- parse_line_raw c (Some (fun s => Utils.PInt <$> py_int s)) ;
  ret (as_int v).
Definition parse_line_float (c : string) : M Q :=
  do v <- parse_line_raw c (Some (fun s => Utils.PFloat <$> py_float s)) ;
  ret (as_float v).

(** [float(s)] and [int(s)] called directly on a parsed string *)
Definition float_of (s : string) : M Q :=
  match py_float s with Some q => ret q | None => raise PyValueError end.
Definition int_of (s : string) : M Z :=
  match py_int s with Some n => ret n | None => raise PyValueError end.

(** [f'... {i + 1}'] *)
Definition numbered (prefix : string) (i : Z) : string :=
  prefix +:+ Utils.str_of_int (i + 1).

Definition parse_body (exomol_def_raw : string) : M ExomolDef :=
  do id_ <- parse_line "ID" ;
  do iso_formula_ <- parse_line "IsoFormula" ;
  do iso_slug_ <- parse_line "Iso-slug" ;
  do dataset_name_ <- parse_line "Isotopologue dataset name" ;
  do version_ <- parse_line_int "Version number with format YYYYMMDD" ;
  do inchi_key_ <- parse_line "Inchi key of molecule" ;
  do num_atoms <- parse_line_int "Number of atoms" ;
  do natoms <- match formula_natoms iso_formula_ with
            | inr n => ret n
            | inl e =>
                raise (ExomolDefParseError
                         (e +:+ " (raised in " +:+ file_name +:+ ")"))
            end ;
  do u <- (if bool_decide (natoms = num_atoms) then ret tt
        else raise (ExomolDefParseError
                      ("Incorrect number of atoms in " +:+ iso_slug_
                       +:+ "__" +:+ dataset_name_ +:+ ".def"))) ;
  do isotopes_ <- for_range (Z.to_nat num_atoms) 0 (fun i =>
    do number_ <- parse_line_int (numbered "Isotope number " i) ;
    do element_symbol_ <- parse_line (numbered "Element symbol " i) ;
    ret (mkIsotope number_ element_symbol_)) ;
  do mass_line <- parse_line "Isotopologue mass (Da) and (kg)" ;
  do iso_mass_amu <- match split_ws mass_line None with
                  | w :: _ => float_of w
                  | [] => raise PyIndexError
                  end ;
  do symmetry_group_ <- parse_line "Symmetry group" ;
  do num_irreducible_representations <-
    (do s <- parse_line "Number of irreducible representations" ; int_of s) ;
  do irreducible_representations_ <-
    for_range (Z.to_nat num_irreducible_representations) 0 (fun _ =>
      do ir_id_ <- parse_line_int "Irreducible representation ID" ;
      do ir_label_ <- parse_line "Irreducible representation label" ;
      do nsd <- parse_line_int "Nuclear spin degeneracy" ;
      ret (mkIrreducibleRepresentation ir_id_ ir_label_ nsd)) ;
  do max_temp_ <- parse_line_float "Maximum temperature of linelist" ;
  do num_pressure_broadeners_ <-
    parse_line_int "No. of pressure broadeners available" ;
  do dipole <- parse_line_int "Dipole availability (1=yes, 0=no)" ;
  do num_cross_sections_ <-
    parse_line_int "No. of cross section files available" ;
  do num_k_coefficients_ <-
    parse_line_int "No. of k-coefficient files available" ;
  do lifetime <- parse_line_int "Lifetime availability (1=yes, 0=no)" ;
  do lande <- parse_line_int "Lande g-factor availability (1=yes, 0=no)" ;
  do num_states_ <- parse_line_int "No. of states in .states file" ;
  do num_quanta_cases <- parse_line_int "No. of quanta cases" ;
  do quanta_cases_ <- for_range (Z.to_nat num_quanta_cases) 0 (fun _ =>
    do l <- parse_line "Quantum case label" ; ret (mkQuantumCase l)) ;
  do num_quanta <- parse_line_int "No. of quanta defined" ;
  do quanta_ <- for_range (Z.to_nat num_quanta) 0 (fun i =>
    do label_ <- parse_line (numbered "Quantum label " i) ;
    do format_ <- parse_line (numbered "Format quantum label " i) ;
    do description_ <- parse_line (numbered "Description quantum label " i) ;
    ret (mkQuantum label_ format_ description_)) ;
  do num_transitions_ <- parse_line "Total number of transitions" ;
  do num_trans_files_ <- parse_line "No. of transition files" ;
  do max_wavenumber_ <- parse_line "Maximum wavenumber (in cm-1)" ;
  do high_energy_complete_ <-
    parse_line "Higher energy with complete set of transitions (in cm-1)" ;
  ret (mkExomolDef exomol_def_raw id_ iso_formula_ iso_slug_ dataset_name_
         version_ inchi_key_ isotopes_ iso_mass_amu symmetry_group_
         irreducible_representations_ max_temp_ num_pressure_broadeners_
         (negb (Z.eqb dipole 0)) num_cross_sections_ num_k_coefficients_
         (negb (Z.eqb lifetime 0)) (negb (Z.eqb lande 0)) num_states_
         quanta_cases_ quanta_ num_transitions_ num_trans_files_
         max_wavenumber_ high_energy_complete_).

End Parser.

Definition _parse_exomol_def_raw (py_int : string -> option Z)
    (py_float : string -> option Q) (formula_natoms : string -> string + Z)
    (exomol_def_raw : string) (file_name : string) (raise_warnings : bool)
    : list string * (def_exn + ExomolDef) :=
  let lines := split_newline exomol_def_raw "" in
  let n_orig := Z.of_nat (length lines) in
  let '(_, ws, r) :=
    catch_line_errors
      (parse_body py_int py_float formula_natoms file_name raise_warnings
         n_orig exomol_def_raw) lines [] in
  (ws, r).

(** ** _get_exomol_def_raw and parse_exomol_def *)

(** What the two functions do to the world, in order: a request over https
    or a file opened for reading *)
Inductive io_event :=
| Requested (url : string)
| Opened (path : string).

(** What can leave [_get_exomol_def_raw]: its own [ValueError] and the
    [FileNotFoundError] of [open]. *)
Inductive get_exn :=
| MissingParameters
| FileNotFoundError (path : string).

Section Retrieval.

(** The world outside: [requests.get(url).text], the text of a file
    ([None] when there is none), and [Path(path).name]. *)
Variable http_get_text : string -> string.
Variable read_text : string -> option string.
Variable path_name : string -> string.

(** Truthiness of an argument that is [None] or a string *)
Definition truthy_arg (s : option string) : bool :=
  match s with Some s => Utils.truthy s | None => false end.

Definition _get_exomol_def_raw (path molecule_slug isotopologue_slug
    dataset_name : option string) : list io_event * (get_exn + string) :=
  match path with
  | None =>
      if negb (truthy_arg molecule_slug && truthy_arg isotopologue_slug
               && truthy_arg dataset_name)
      then ([], inl MissingParameters)
      else
        let mol := default "" molecule_slug in
        let iso := default "" isotopologue_slug in
        let ds := default "" dataset_name in
        let url := "https://www.exomol.com/db/" +:+ mol +:+ "/" +:+ iso
                   +:+ "/" +:+ ds +:+ "/" +:+ iso +:+ "__" +:+ ds +:+ ".def" in
        ([Requested url], inr (http_get_text url))
  | Some p =>
      ([Opened p],
       match read_text p with
       | Some text => inr text
       | None => inl (FileNotFoundError p)
       end)
  end.

Definition parse_exomol_def (py_int : string -> option Z)
    (py_float : string -> option Q) (formula_natoms : string -> string + Z)
    (path molecule_slug isotopologue_slug dataset_name : option string)
    (raise_warnings : bool)
    : list io_event * (get_exn + list string * (def_exn + ExomolDef)) :=
  match _get_exomol_def_raw path molecule_slug isotopologue_slug
          dataset_name with
  | (events, inl e) => (events, inl e)
  | (events, inr raw_text) =>
      let file_name :=
        match path with
        | Some p => path_name p
        | None => default "" isotopologue_slug +:+ "__"
                  +:+ default "" dataset_name +:+ ".def"
        end in
      (events,
       inr (_parse_exomol_def_raw py_int py_float formula_natoms raw_text
              file_name raise_warnings))
  end.

End Retrieval.

End ParseDef.

(* ===================================================================== *)
(** * read_inputs.py *)
(* ===================================================================== *)

Module ReadInputs.

(** A path is its list of components; [p / name] appends one. *)
Definition path := list string.
Definition child (p : path) (name : string) : path := p ++ [name].

(** The attributes of exomole's [DefParser] that [MoleculeInput] reads
    after [parse]. *)
Record DefParser := mkDefParser {
  lifetime_availability : bool;
  lande_factor_availability : bool;
  get_quanta_labels : list string
}.

(** The world outside: the directory tree, exomole's definition parser
    ([None]: [parse] raises [DefParseError]) and its column sniffer. *)
Record filesystem := mkFilesystem {
  is_dir : path -> bool;
  is_file : path -> bool;
  sorted_glob : path -> string -> list path;
  parse_def : path -> option DefParser;
  get_num_columns : path -> Z
}.

(** Every access to the world is logged, in order. *)
Inductive fs_op :=
| IsDir (p : path)
| IsFile (p : path)
| Glob (dir : path) (pattern : string)
| ParseDefFile (p : path)
| NumColumns (p : path).

(** The conditions under which [MoleculeInputError] is raised, one per
    message of the source. *)
Inductive reason :=
| MissingMandatoryAttributes
| MissingResolve
| MoleculeDirectoryNotFound (p : path)
| IsotopologueDirectoryNotFound (p : path)
| DatasetDirectoryNotFound (p : path)
| DefFileNotFound (p : path)
| StatesFileNotFound (p : path)
| NoTransFilesFound (dir : path) (pattern : string)
| UnexpectedStatesHeader
| CommonResolveValues
| UnsupportedResolveValues
| UnrecognisedOnlyWith
| StatesColumnsMismatch (found expected : Z)
| TransColumnsMismatch (found : Z).

Inductive exn :=
| MoleculeInputError (why : reason)
| DefParseError.

(** A computation that touches the world: the accesses made, then the
    value or the exception. *)
Definition IO (A : Type) : Type := list fs_op * (exn + A).

Definition ret {A} (a : A) : IO A := ([], inr a).
Definition raise {A} (e : exn) : IO A := ([], inl e).
Definition bind {A B} (m : IO A) (k : A -> IO B) : IO B :=
  match m with
  | (t, inr a) => let '(t', r) := k a in (t ++ t', r)
  | (t, inl e) => (t, inl e)
  end.
Definition access {A} (op : fs_op) (a : A) : IO A := ([op], inr a).

Notation "'do' x <- m ; k" := (bind m (fun x => k))
  (at level 10, x name, m at level 100, k at level 200).

(** [if cond: raise MoleculeInputError(...)] *)
Definition raise_if (cond : bool) (why : reason) : IO unit :=
  if cond then raise (MoleculeInputError why) else ret tt.

Definition mandatory_columns : list string :=
  ["i"; "E"; "g_tot"; "J"; "tau"; "g_J"].

(** Truthiness of an attribute that is [None] or a string *)
Definition truthy_attr (s : option string) : bool :=
  match s with Some s => Utils.truthy s | None => false end.

(** [set(a).intersection(b)] is non-empty *)
Definition intersects (a b : list string) : bool :=
  existsb (fun x => bool_decide (x ∈ b)) a.

(** [set(a).issubset(b)] *)
Definition issubset (a b : list string) : bool :=
  forallb (fun x => bool_decide (x ∈ b)) a.

(** [set(a).difference(b)], as a list *)
Definition difference (a b : list string) : list string :=
  filter (fun x => x ∉ b) a.

(** What [get_all_inputs] prints: a line for a formula whose input is
    inconsistent, and the closing line with the two counts. *)
Inductive printed :=
| Reported (molecule_formula : string) (e : exn)
| Summary (num_exceptions_raised total : nat).

(** What can leave [get_input]: the [KeyError] of the dictionary, or what
    the constructor raises. *)
Inductive input_exn :=
| KeyError (key : string)
| Raised (e : exn).

Section MoleculeInput.

(** The type of the values an [only_with] entry requires. *)
Context {V : Type}.

(** The keyword arguments: the entries of one [molecule_formula] in
    [molecules.json].  An absent key has the value of its stub;
    [energy_max = None] is the stub [float("inf")]. *)
Record kwargs := mkKwargs {
  kw_mol_slug : option string;
  kw_iso_slug : option string;
  kw_dataset_name : option string;
  kw_states_header : option (list string);
  kw_resolve_el : list string;
  kw_resolve_vib : list string;
  kw_energy_max : option Q;
  kw_only_with : list (string * V)
}.

Record MoleculeInput := mkMoleculeInput {
  formula : string;
  mol_slug : string;
  iso_slug : string;
  dataset_name : string;
  states_header : list string;
  resolve_el : list string;
  resolve_vib : list string;
  energy_max : option Q;
  only_with : list (string * V);
  def_path : path;
  states_path : path;
  trans_paths : list path;
  def_parser : option DefParser
}.

Variable EXOMOL_DATA_DIR : path.
Variable fs : filesystem.

(** [# get .states column names:] *)
Definition get_states_column_names (explicit : option (list string))
    (states_path_ : path) : IO (list string * option DefParser) :=
  match explicit with
  | None =>
      do parsed <- access (ParseDefFile states_path_)
                     (parse_def fs states_path_) ;
      match parsed with
      | None => raise DefParseError
      | Some dp =>
          let header := ["i"; "E"; "g_tot"; "J"] in
          let header :=
            if lifetime_availability dp then header ++ ["tau"] else header in
          let header :=
            if lande_factor_availability dp then header ++ ["g_J"]
            else header in
          ret (header ++ get_quanta_labels dp, Some dp)
      end
  | Some header =>
      do u <- raise_if
                (negb (bool_decide (take 4 header = ["i"; "E"; "g_tot"; "J"])))
                UnexpectedStatesHeader ;
      ret (header, None)
  end.

Definition MoleculeInput_init (molecule_formula : string) (kw : kwargs)
    : IO MoleculeInput :=
  do u <- raise_if
            (negb (truthy_attr (kw_mol_slug kw) && truthy_attr (kw_iso_slug kw)
                   && truthy_attr (kw_dataset_name kw)))
            MissingMandatoryAttributes ;
  do u <- raise_if
            (negb (negb (Nat.eqb (length (kw_resolve_el kw)) 0)
                   || negb (Nat.eqb (length (kw_resolve_vib kw)) 0)))
            MissingResolve ;
  let mol_slug_ := default "" (kw_mol_slug kw) in
  let iso_slug_ := default "" (kw_iso_slug kw) in
  let dataset_name_ := default "" (kw_dataset_name kw) in
  let mol_root := child EXOMOL_DATA_DIR mol_slug_ in
  do d <- access (IsDir mol_root) (is_dir fs mol_root) ;
  do u <- raise_if (negb d) (MoleculeDirectoryNotFound mol_root) ;
  let iso_root := child mol_root iso_slug_ in
  do d <- access (IsDir iso_root) (is_dir fs iso_root) ;
  do u <- raise_if (negb d) (IsotopologueDirectoryNotFound iso_root) ;
  let ds_root := child iso_root dataset_name_ in
  do d <- access (IsDir ds_root) (is_dir fs ds_root) ;
  do u <- raise_if (negb d) (DatasetDirectoryNotFound ds_root) ;
  let file_name_stem := iso_slug_ +:+ "__" +:+ dataset_name_ in
  let def_path_ := child ds_root (file_name_stem +:+ ".def") in
  do f <- access (IsFile def_path_) (is_file fs def_path_) ;
  do u <- raise_if (negb f) (DefFileNotFound def_path_) ;
  let states_path_ := child ds_root (file_name_stem +:+ ".states.bz2") in
  do f <- access (IsFile states_path_) (is_file fs states_path_) ;
  do u <- raise_if (negb f) (StatesFileNotFound states_path_) ;
  let trans_wc := file_name_stem +:+ "*.trans.bz2" in
  do trans_paths_ <- access (Glob ds_root trans_wc)
                       (sorted_glob fs ds_root trans_wc) ;
  do u <- raise_if (Nat.eqb (length trans_paths_) 0)
            (NoTransFilesFound ds_root trans_wc) ;
  do hp <- get_states_column_names (kw_states_header kw) states_path_ ;
  let states_header_ := hp.1 in
  (* resolve_el and resolve_vib must not share any states: *)
  do u <- raise_if (intersects (kw_resolve_el kw) (kw_resolve_vib kw))
            CommonResolveValues ;
  let resolved_quanta := kw_resolve_el kw ++ kw_resolve_vib kw in
  (* only states might be in resolve_vib and resolve_el: *)
  do u <- raise_if (intersects resolved_quanta mandatory_columns)
            UnsupportedResolveValues ;
  let quanta_available := difference states_header_ mandatory_columns in
  do u <- raise_if (negb (issubset resolved_quanta quanta_available))
            UnsupportedResolveValues ;
  (* "only_with" keys need to be subset of quanta nad J *)
  do u <- raise_if
            (negb (issubset (map fst (kw_only_with kw))
                     (quanta_available ++ ["J"])))
            UnrecognisedOnlyWith ;
  do states_num_columns <- access (NumColumns states_path_)
                             (get_num_columns fs states_path_) ;
  do u <- raise_if
            (negb (Z.eqb (Z.of_nat (length states_header_)) states_num_columns))
            (StatesColumnsMismatch states_num_columns
               (Z.of_nat (length states_header_))) ;
  let first_trans := default [] (head trans_paths_) in
  do num_columns_trans <- access (NumColumns first_trans)
                            (get_num_columns fs first_trans) ;
  do u <- raise_if
            (negb (Z.eqb num_columns_trans 3 || Z.eqb num_columns_trans 4))
            (TransColumnsMismatch num_columns_trans) ;
  ret (mkMoleculeInput molecule_formula mol_slug_ iso_slug_ dataset_name_
         states_header_ (kw_resolve_el kw) (kw_resolve_vib kw)
         (kw_energy_max kw) (kw_only_with kw) def_path_ states_path_
         trans_paths_ hp.2).

(** ** get_input and get_all_inputs *)

(** [inputs_dict[key]], on the entries of the loaded json object *)
Fixpoint dict_get (inputs_dict : list (string * kwargs)) (key : string)
    : option kwargs :=
  match inputs_dict with
  | [] => None
  | (k, kw) :: rest => if bool_decide (k = key) then Some kw
                       else dict_get rest key
  end.

Definition get_input (molecule_formula : string)
    (inputs_dict : list (string * kwargs))
    : list fs_op * (input_exn + MoleculeInput) :=
  match dict_get inputs_dict molecule_formula with
  | None => ([], inl (KeyError molecule_formula))
  | Some kw =>
      match MoleculeInput_init molecule_formula kw with
      | (t, inl e) => (t, inl (Raised e))
      | (t, inr mi) => (t, inr mi)
      end
  end.

(** The loop of [get_all_inputs] over the formulas still to come, with the
    dictionary [all_inputs], the count of exceptions, the accesses to the
    file system and the lines printed so far.  The function has no return
    statement: a run that does not raise yields [None], here [tt]. *)
Fixpoint get_all_inputs_loop (bypass_exceptions : bool) (total : nat)
    (entries : list (string * kwargs))
    (all_inputs : gmap string (option MoleculeInput))
    (num_exceptions_raised : nat) (trace : list fs_op) (out : list printed)
    : list fs_op * list printed * (exn + unit) :=
  match entries with
  | [] =>
      (trace,
       if bypass_exceptions && negb (Nat.eqb num_exceptions_raised 0)
       then out ++ [Summary num_exceptions_raised total] else out,
       inr tt)
  | (molecule_formula, kw) :: entries' =>
      match MoleculeInput_init molecule_formula kw with
      | (t, inr mol_input) =>
          get_all_inputs_loop bypass_exceptions total entries'
            (<[molecule_formula := Some mol_input]> all_inputs)
            num_exceptions_raised (trace ++ t) out
      | (t, inl e) =>
          if bypass_exceptions
          then get_all_inputs_loop bypass_exceptions total entries'
                 (<[molecule_formula := None]> all_inputs)
                 (S num_exceptions_raised) (trace ++ t)
                 (out ++ [Reported molecule_formula e])
          else (trace ++ t, out, inl e)
      end
  end.

Definition get_all_inputs (inputs_dict : list (string * kwargs))
    (bypass_exceptions : bool) : list fs_op * list printed * (exn + unit) :=
  get_all_inputs_loop bypass_exceptions (length inputs_dict) inputs_dict
    ∅ 0%nat [] [].

End MoleculeInput.

Arguments kwargs : clear implicits.
Arguments MoleculeInput : clear implicits.

End ReadInputs.

(* ===================================================================== *)
(** * process_dataset.py *)
(* ===================================================================== *)

Module ProcessDataset.

(** ** float64 cells *)

(** A cell of a [float64] column: a finite number or NaN ([None]).  Finite
    results are kept in lowest terms, so that equal numbers are equal
    cells. *)
Definition float := option Q.

Definition fadd (a b : float) : float :=
  match a, b with
  | Some x, Some y => Some (Qred (x + y))
  | _, _ => None
  end.

(** [a / b]: a zero divisor gives an infinity or NaN, neither finite. *)
Definition fdiv (a b : float) : float :=
  match a, b with
  | Some x, Some y => if Qeq_bool y 0 then None else Some (Qred (x / y))
  | _, _ => None
  end.

(** [a == b]: false as soon as one side is NaN *)
Definition feq (a b : float) : bool :=
  match a, b with
  | Some x, Some y => Qeq_bool x y
  | _, _ => false
  end.

(** [a.lt(b, fill_value='inf')] on one aligned position: a side that is
    missing is taken as +inf unless both are missing. *)
Definition flt_fill_inf (a b : float) : bool :=
  match a, b with
  | Some x, Some y => negb (Qle_bool y x)
  | Some _, None => true
  | None, _ => false
  end.

(** Round half to even to an integer *)
Definition rint (q : Q) : Z :=
  let f := Qfloor q in
  match Qcompare (q - inject_Z f) (1 # 2) with
  | Lt => f
  | Gt => f + 1
  | Eq => if Z.even f then f else f + 1
  end.

(** [round(x, 5)] *)
Definition round5 (a : float) : float :=
  match a with
  | Some x => Some (Qred (inject_Z (rint (x * inject_Z 100000)) / inject_Z 100000))
  | None => None
  end.

(** [[l[k : k + n] for k in range(0, len(l), n)]]: the chunks that
    [read_csv] yields with [chunksize = n], which is how [states_chunks]
    reads the table.  The first argument bounds the number of chunks. *)
Fixpoint chunks_upto {A} (fuel : nat) (n : nat) (l : list A) : list (list A) :=
  match fuel, l with
  | O, _ | _, [] => []
  | S fuel', _ => take n l :: chunks_upto fuel' n (drop n l)
  end.

Definition chunked {A} (n : nat) (l : list A) : list (list A) :=
  chunks_upto (length l) n l.

(** [l.index(x)] *)
Fixpoint index_of (x : string) (l : list string) : option nat :=
  match l with
  | [] => None
  | y :: l' => if bool_decide (x = y) then Some O else S <$> index_of x l'
  end.

Inductive reason :=
| NeedsResolve
| Unrecognised (name : string).

Inductive exn := MoleculeInputError (why : reason).

Section DatasetProcessor.

(** The values of the columns after ['J'] (quantum numbers and the
    like), compared with [==] and used as group keys. *)
Context {V : Type} `{Countable V}.

(** One row of the [.states] table: the index column [i], the three
    numeric columns every header starts with, and the cells of the
    remaining columns [states_header[4:]], in order. *)
Record state_row := mkRow {
  i : Z;
  E : Q;
  g_tot : Q;
  J : Q;
  rest : list V
}.

(** A row of the running frame [lumped_states] *)
Record lumped_row := mkLumped {
  lumped_J : float;
  sum_w : float;
  sum_en_x_w : float
}.

(** A row of the final frame: [sum_w] and [sum_en_x_w] dropped, [E]
    added *)
Record final_row := mkFinal {
  final_J : float;
  final_E : float
}.

Record DatasetProcessor := mkDatasetProcessor {
  formula : string;
  states_header : list string;
  resolve_el : list string;
  resolve_vib : list string;
  only_with : list (string * V);
  energy_max : option Q;
  resolved_quanta : list string;
  lumped_states : option (gmap (list V) final_row);
  states_map_lumped_to_original : gmap (list V) (gset Z);
  states_map_original_to_lumped : gmap Z (list V)
}.

(** ** __init__ *)

Definition DatasetProcessor_init (molecule_input : ReadInputs.MoleculeInput V)
    : exn + DatasetProcessor :=
  let formula_ := ReadInputs.formula molecule_input in
  let states_header_ := ReadInputs.states_header molecule_input in
  let resolve_el_ := ReadInputs.resolve_el molecule_input in
  let resolve_vib_ := ReadInputs.resolve_vib molecule_input in
  let only_with_ := ReadInputs.only_with molecule_input in
  let energy_max_ := ReadInputs.energy_max molecule_input in
  if Nat.eqb (length resolve_el_) 0 && Nat.eqb (length resolve_vib_) 0
  then inl (MoleculeInputError NeedsResolve)
  else
    match
      find (fun nq => negb (ReadInputs.issubset nq.2 (drop 4 states_header_)))
        [("resolve_el", resolve_el_); ("resolve_vib", resolve_vib_);
         ("only_with", map fst only_with_)]
    with
    | Some (name, _) => inl (MoleculeInputError (Unrecognised name))
    | None =>
        inr (mkDatasetProcessor formula_ states_header_ resolve_el_
               resolve_vib_ only_with_ energy_max_
               (resolve_el_ ++ resolve_vib_) None ∅ ∅)
    end.

(** ** process_states *)

Section Process.

Variable self : DatasetProcessor.

(** [row[name]] for a column after ['J']; [None] is a missing cell. *)
Definition cell (name : string) (r : state_row) : option V :=
  index_of name (drop 4 (states_header self)) ≫= fun n => rest r !! n.

(** The mask of [process_states]: every [only_with] entry matches and
    [E <= energy_max]. *)
Definition mask (r : state_row) : bool :=
  forallb (fun qv => match cell qv.1 r with
                     | Some v => bool_decide (v = qv.2)
                     | None => false
                     end) (only_with self)
  && match energy_max self with
     | Some m => Qle_bool (E r) m
     | None => true
     end.

(** [tuple(row.loc[self.resolved_quanta])] *)
Definition lumped_key (r : state_row) : option (list V) :=
  mapM (fun q => cell q r) (resolved_quanta self).

(** [chunk.groupby(self.resolved_quanta)]: the rows of each key, in
    table order; a row with a missing key cell belongs to no group. *)
Fixpoint add_to_group (k : list V) (r : state_row)
    (groups : list (list V * list state_row))
    : list (list V * list state_row) :=
  match groups with
  | [] => [(k, [r])]
  | (k', df) :: groups' =>
      if decide (k = k') then (k', r :: df) :: groups'
      else (k', df) :: add_to_group k r groups'
  end.

Fixpoint groupby (chunk : list state_row)
    : list (list V * list state_row) :=
  match chunk with
  | [] => []
  | r :: chunk' =>
      match lumped_key r with
      | Some k => add_to_group k r (groupby chunk')
      | None => groupby chunk'
      end
  end.

(** [df.E.min()] *)
Definition E_min (df : list state_row) : option Q :=
  match df with
  | [] => None
  | r :: df' =>
      Some (foldl (fun m r' => if Qle_bool m (E r') then m else E r')
              (E r) df')
  end.

(** [col.sum()] *)
Definition fsum (col : list Q) : float :=
  foldl (fun acc x => fadd acc (Some x)) (Some 0%Q) col.

(** [_process_state_group]: records the lump in
    [states_map_lumped_to_original] (passed in and returned) and
    returns the series [J, sum_w, sum_en_x_w] of the group. *)
Definition _process_state_group (l2o : gmap (list V) (gset Z))
    (df : list state_row) : gmap (list V) (gset Z) * lumped_row :=
  match df, E_min df with
  | r0 :: _, Some e_min =>
      let l2o' :=
        match lumped_key r0 with
        | Some lumped_state =>
            <[lumped_state :=
                default ∅ (l2o !! lumped_state) ∪ list_to_set (map i df)]> l2o
        | None => l2o
        end in
      let min_en_j :=
        default (J r0) (J <$> find (fun r => Qeq_bool (E r) e_min) df) in
      let sub_df := List.filter (fun r => Qeq_bool (J r) min_en_j) df in
      (l2o', mkLumped (Some min_en_j)
               (fsum (map g_tot sub_df))
               (fsum (map (fun r => E r * g_tot r)%Q sub_df)))
  | _, _ => (l2o, mkLumped None None None)
  end.

(** [chunk_grouped.apply(self._process_state_group)]: one call per
    group, threading the map; the result frame has one row per key. *)
Fixpoint apply_groups (groups : list (list V * list state_row))
    (l2o : gmap (list V) (gset Z))
    : gmap (list V) (gset Z) * gmap (list V) lumped_row :=
  match groups with
  | [] => (l2o, ∅)
  | (k, df) :: groups' =>
      let '(l2o1, s) := _process_state_group l2o df in
      let '(l2o2, frame) := apply_groups groups' l2o1 in
      (l2o2, <[k := s]> frame)
  end.

(** [frame.J] at [k], NaN where [k] is not in the index *)
Definition J_at (frame : gmap (list V) lumped_row) (k : list V) : float :=
  frame !! k ≫= lumped_J.

(** The second half of the loop body: the chunk's frame
    [lumped_states_chunk] is merged into the running frame
    [lumped_states]; the result is the next [lumped_states]. *)
Definition merge_chunk
    (lumped_states lumped_states_chunk : gmap (list V) lumped_row)
    : gmap (list V) lumped_row :=
  (* reset_mask = lumped_states_chunk.J.lt(lumped_states.J, fill_value='inf') *)
  let reset_mask : gmap (list V) bool :=
    merge (fun c l => Some (flt_fill_inf (c ≫= lumped_J) (l ≫= lumped_J)))
      lumped_states_chunk lumped_states in
  let reset_index : gset (list V) :=
    dom (filter (fun kv => kv.2 = true) reset_mask) in
  (* a new frame of NaN over the union of the indices *)
  let lumped_states_updated : gmap (list V) lumped_row :=
    gset_to_gmap (mkLumped None None None)
      (dom lumped_states ∪ reset_index) in
  (* and reset the values *)
  let lumped_states_updated :=
    map_imap (fun k row =>
      Some (if decide (k ∈ reset_index)
            then mkLumped (J_at lumped_states_chunk k) (Some 0%Q) (Some 0%Q)
            else row)) lumped_states_updated in
  (* update_mask = lumped_states_updated.J.eq(lumped_states_chunk.J) *)
  let update_mask (k : list V) : bool :=
    feq (J_at lumped_states_updated k) (J_at lumped_states_chunk k) in
  map_imap (fun k row =>
    Some (if update_mask k
          then mkLumped (lumped_J row)
                 (fadd (sum_w row) (lumped_states_chunk !! k ≫= sum_w))
                 (fadd (sum_en_x_w row)
                    (lumped_states_chunk !! k ≫= sum_en_x_w))
          else row)) lumped_states_updated.

(** The first half of the loop body: mask, group, apply.  A chunk without
    a surviving row has no group and gives the empty frame. *)
Definition lump_chunk (l2o : gmap (list V) (gset Z))
    (chunk : list state_row)
    : gmap (list V) (gset Z) * gmap (list V) lumped_row :=
  let chunk := List.filter mask chunk in
  let chunk_grouped := groupby chunk in
  apply_groups chunk_grouped l2o.

(** The body of the loop over the chunks, on the running frame and
    the map [states_map_lumped_to_original] *)
Definition process_chunk
    (st : gmap (list V) lumped_row * gmap (list V) (gset Z))
    (chunk : list state_row)
    : gmap (list V) lumped_row * gmap (list V) (gset Z) :=
  let '(lumped_states, l2o) := st in
  let '(l2o', lumped_states_chunk) := lump_chunk l2o chunk in
  (merge_chunk lumped_states lumped_states_chunk, l2o').

(** [lumped_states['E'] = round(sum_en_x_w / sum_w, 5)], then the two
    sums are dropped. *)
Definition finalize (row : lumped_row) : final_row :=
  mkFinal (lumped_J row) (round5 (fdiv (sum_en_x_w row) (sum_w row))).

(** [process_states], on the chunks that [self.states_chunks] yields *)
Definition process_states (states_chunks : list (list state_row))
    : DatasetProcessor :=
  let '(lumped, l2o) :=
    foldl process_chunk (∅, states_map_lumped_to_original self)
      states_chunks in
  mkDatasetProcessor (formula self) (states_header self) (resolve_el self)
    (resolve_vib self) (only_with self) (energy_max self)
    (resolved_quanta self) (Some (finalize <$> lumped)) l2o
    (states_map_original_to_lumped self).

End Process.

End DatasetProcessor.

Arguments state_row : clear implicits.
Arguments DatasetProcessor V {_ _}.

(** ** trans_chunks *)

(** What can leave [trans_chunks]: its own error, with the file and the
    number of columns it names, and the [IndexError] of
    [self.trans_paths[0]]. *)
Inductive chunks_exn :=
| ExomolTransParseError (file : ReadInputs.path) (num_cols : Z)
| PyIndexError.

Section TransChunks.

(** The rows of a [.trans] file as [read_csv] reads them under the given
    column names, and [get_num_columns] of [utils]. *)
Context {R : Type}.
Variable read_csv : ReadInputs.path -> list string -> list R.
Variable get_num_columns : ReadInputs.path -> Z.
Variable TRANS_CHUNK_SIZE : nat.

(** [load_dataframe_chunks]: the frames of [chunk_size] rows *)
Definition load_dataframe_chunks (file_path : ReadInputs.path)
    (chunk_size : nat) (column_names : list string) : list (list R) :=
  chunked chunk_size (read_csv file_path column_names).

(** [trans_chunks], for the [trans_paths] of the processor: the column
    names and the chunks that are yielded, in order. *)
Definition trans_chunks (trans_paths : list ReadInputs.path)
    : chunks_exn + (list string * list (list R)) :=
  match trans_paths with
  | [] => inl PyIndexError
  | first :: _ =>
      let num_cols := get_num_columns first in
      let column_names := ["i"; "f"; "A_if"] in
      let yielded column_names : chunks_exn + (list string * list (list R)) :=
        inr (column_names,
             flat_map (fun file_path =>
                         load_dataframe_chunks file_path TRANS_CHUNK_SIZE
                           column_names) trans_paths) in
      if Z.eqb num_cols 4 then yielded (column_names ++ ["v_if"])
      else if negb (Z.eqb num_cols 3)
           then inl (ExomolTransParseError first num_cols)
           else yielded column_names
  end.

End TransChunks.

End ProcessDataset.

(* ===================================================================== *)
(** * Vocabulary of the statements *)
(* ===================================================================== *)

(** A line is blank when nothing is left of it after [strip]. *)
Definition blank (l : string) : bool := negb (Utils.truthy (Utils.strip l)).

(** The list from its first non-blank line on *)
Fixpoint drop_blank (lines : list string) : list string :=
  match lines with
  | [] => []
  | l :: rest => if blank l then drop_blank rest else lines
  end.

(** [msg] names line [n]. *)
Definition carries_line_number (msg : string) (n : Z) : Prop :=
  exists before after,
    msg = before +:+ "line " +:+ Utils.str_of_int n +:+ after.

(** [msg] ends with the file label [f]. *)
Definition carries_file_label (msg : string) (f : string) : Prop :=
  exists before, msg = before +:+ " in " +:+ f.

(** A computation on the file system that ends in an exception *)
Definition fails {A} (m : ReadInputs.IO A) : Prop :=
  exists t e, m = (t, inl e).

(** The original indices recorded for the lump [g]; none when [g] is not a
    key of the map *)
Definition members {V} `{Countable V} (l2o : gmap (list V) (gset Z))
    (g : list V) : gset Z :=
  default ∅ (l2o !! g).

(** What the groups of [groupby] have in common: none is empty, and the rows
    of a group have the key of the group. *)
Definition keyed {V} `{Countable V} (self : ProcessDataset.DatasetProcessor V)
    (groups : list (list V * list (ProcessDataset.state_row V))) : Prop :=
  forall k df, (k, df) ∈ groups ->
    df <> [] /\
    forall r, r ∈ df -> ProcessDataset.lumped_key self r = Some k.

(** No key of the map has an empty set. *)
Definition inhabited_sets {V} `{Countable V} (l2o : gmap (list V) (gset Z))
    : Prop :=
  forall g S, l2o !! g = Some S -> exists x, x ∈ S.

(** ['# '.join(pieces)] *)
Fixpoint join_hash_space (pieces : list string) : string :=
  match pieces with
  | [] => ""
  | [p] => p
  | p :: ps => p +:+ "# " +:+ join_hash_space ps
  end.

(** Every character of [s] is whitespace. *)
Fixpoint all_whitespace (s : string) : bool :=
  match s with
  | EmptyString => true
  | String c s' => Utils.is_whitespace c && all_whitespace s'
  end.

(** [s] starts with a whitespace character. *)
Definition starts_with_whitespace (s : string) : bool :=
  match s with
  | EmptyString => false
  | String c _ => Utils.is_whitespace c
  end.

(** [s] ends with a whitespace character. *)
Definition ends_with_whitespace (s : string) : bool :=
  starts_with_whitespace (String.rev s).

(** The warnings for the blank lines at the head of [lines], one per line,
    each with the number of its line *)
Fixpoint empty_line_warnings (lines : list string) (n_orig : Z)
    (file_name : option string) : list string :=
  match lines with
  | [] => []
  | l :: rest =>
      if blank l
      then Utils.in_file ("Empty line detected on line "
                          +:+ Utils.str_of_int (n_orig - Z.of_nat (length rest)))
             file_name
           :: empty_line_warnings rest n_orig file_name
      else []
  end.

(** The three errors of the line reader, as the definition reader can meet
    them in a file of [n_orig] lines: the lines ran out, or a line between
    1 and [n_orig] is malformed or holds a value of the wrong type. *)
Definition line_error_reported (file_name : string) (n_orig : Z)
    (e : Utils.exn) : Prop :=
  e = Utils.ExomolLineValueError
        (Utils.in_file "Run out of lines" (Some file_name))
  \/ exists n, 1 <= n <= n_orig /\
       (e = Utils.ExomolLineCommentError
              (Utils.in_file ("Unexpected line format detected on line "
                              +:+ Utils.str_of_int n) (Some file_name))
        \/ e = Utils.ExomolLineValueError
                 (Utils.in_file ("Unexpected value type detected on line "
                                 +:+ Utils.str_of_int n) (Some file_name))).

(** The two messages that [_parse_exomol_def_raw] writes itself *)
Definition formula_error_reported (file_name : string) (msg : string) : Prop :=
  (exists e, msg = e +:+ " (raised in " +:+ file_name +:+ ")")
  \/ (exists iso_slug dataset_name,
        msg = "Incorrect number of atoms in " +:+ iso_slug +:+ "__"
              +:+ dataset_name +:+ ".def").

Definition def_error_reported (file_name : string) (n_orig : Z)
    (e : ParseDef.def_exn) : Prop :=
  match e with
  | ParseDef.LineError le => line_error_reported file_name n_orig le
  | ParseDef.ExomolDefParseError msg => formula_error_reported file_name msg
  | ParseDef.PyValueError | ParseDef.PyIndexError => True
  end.

(** What every step of the definition reader keeps: on a list of at most
    [n_orig] lines it leaves a list that is not longer, it adds no warning
    when warnings are off, and its error, if any, is a reported one. *)
Definition steady (file_name : string) (raise_warnings : bool) (n_orig : Z)
    {A} (m : ParseDef.M A) : Prop :=
  forall ls ws ls' ws' r,
    Z.of_nat (length ls) <= n_orig ->
    m ls ws = (ls', ws', r) ->
    (length ls' <= length ls)%nat
    /\ (raise_warnings = false -> ws' = ws)
    /\ (forall e, r = inl e -> def_error_reported file_name n_orig e).

(** The constructor run on one entry of the json object *)
Definition construct {V} (root : ReadInputs.path)
    (world : ReadInputs.filesystem) (entry : string * ReadInputs.kwargs V)
    : ReadInputs.IO (ReadInputs.MoleculeInput V) :=
  ReadInputs.MoleculeInput_init root world entry.1 entry.2.


(** The accesses to the file system of the constructors of the entries,
    one after the other *)
Definition accesses {V} (root : ReadInputs.path)
    (world : ReadInputs.filesystem)
    (inputs_dict : list (string * ReadInputs.kwargs V))
    : list ReadInputs.fs_op :=
  flat_map (fun entry => (construct root world entry).1) inputs_dict.

(** The accesses to the file system of a constructor that runs to its
    end, in order: the three directories, the definition file, the states
    file, the pattern of the transitions files, the parse when no header
    is given, and the columns of the states file and of the first
    transitions file. *)
Definition all_accesses {V} (root : ReadInputs.path)
    (world : ReadInputs.filesystem) (kw : ReadInputs.kwargs V)
    : list ReadInputs.fs_op :=
  let iso := default "" (ReadInputs.kw_iso_slug kw) in
  let ds := default "" (ReadInputs.kw_dataset_name kw) in
  let mol_root :=
    ReadInputs.child root (default "" (ReadInputs.kw_mol_slug kw)) in
  let iso_root := ReadInputs.child mol_root iso in
  let ds_root := ReadInputs.child iso_root ds in
  let stem := iso +:+ "__" +:+ ds in
  let states := ReadInputs.child ds_root (stem +:+ ".states.bz2") in
  let trans_wc := stem +:+ "*.trans.bz2" in
  [ReadInputs.IsDir mol_root; ReadInputs.IsDir iso_root;
   ReadInputs.IsDir ds_root;
   ReadInputs.IsFile (ReadInputs.child ds_root (stem +:+ ".def"));
   ReadInputs.IsFile states; ReadInputs.Glob ds_root trans_wc]
  ++ match ReadInputs.kw_states_header kw with
     | None => [ReadInputs.ParseDefFile states]
     | Some _ => []
     end
  ++ [ReadInputs.NumColumns states;
      ReadInputs.NumColumns
        (default [] (head (ReadInputs.sorted_glob world ds_root trans_wc)))].

(** A run whose accesses are the first of [canon], and all of them when it
    ends without an exception *)
Definition in_order {A} (canon : list ReadInputs.fs_op)
    (run : ReadInputs.IO A) : Prop :=
  run.1 `prefix_of` canon /\ forall a, run.2 = inr a -> run.1 = canon.

(** The series [J, sum_w, sum_en_x_w] that [_process_state_group] returns
    for the group [df] *)
Definition series {V} `{Countable V} (self : ProcessDataset.DatasetProcessor V)
    (df : list (ProcessDataset.state_row V)) : ProcessDataset.lumped_row :=
  (ProcessDataset._process_state_group self ∅ df).2.





(** The name under which [parse_exomol_def] reports the file *)
Definition def_file_label (path_name : string -> string)
    (path isotopologue_slug dataset_name : option string) : string :=
  match path with
  | Some p => path_name p
  | None => default "" isotopologue_slug +:+ "__"
            +:+ default "" dataset_name +:+ ".def"
  end.

(** What the line reader sees of a list of lines: the lines that are not
    blank, stripped *)
Definition canon_lines (lines : list string) : list string :=
  map Utils.strip (List.filter (fun l => negb (blank l)) lines).

(** Two exceptions of the same class, whatever their messages *)
Definition same_kind (e1 e2 : ParseDef.def_exn) : Prop :=
  match e1, e2 with
  | ParseDef.LineError (Utils.ExomolLineCommentError _),
    ParseDef.LineError (Utils.ExomolLineCommentError _)
  | ParseDef.LineError (Utils.ExomolLineValueError _),
    ParseDef.LineError (Utils.ExomolLineValueError _)
  | ParseDef.ExomolDefParseError _, ParseDef.ExomolDefParseError _
  | ParseDef.PyValueError, ParseDef.PyValueError
  | ParseDef.PyIndexError, ParseDef.PyIndexError => True
  | _, _ => False
  end.

(** Two steps of the definition reader that cannot be told apart on lists
    with the same stripped non-blank lines: both return, values related by
    [R] and remaining lists alike again, or both raise the same kind of
    exception. *)
Definition alike {A} (R : A -> A -> Prop) (m1 m2 : ParseDef.M A) : Prop :=
  forall ls1 ls2 ws1 ws2,
    canon_lines ls1 = canon_lines ls2 ->
    match m1 ls1 ws1, m2 ls2 ws2 with
    | (ls1', _, inr a1), (ls2', _, inr a2) =>
        R a1 a2 /\ canon_lines ls1' = canon_lines ls2'
    | (_, _, inl e1), (_, _, inl e2) => same_kind e1 e2
    | _, _ => False
    end.

(** The definition [d] as parsed from another text *)
Definition with_raw_text (raw : string) (d : ParseDef.ExomolDef)
    : ParseDef.ExomolDef :=
  ParseDef.mkExomolDef raw (ParseDef.id d) (ParseDef.iso_formula d)
    (ParseDef.iso_slug d) (ParseDef.dataset_name d) (ParseDef.version d)
    (ParseDef.inchi_key d) (ParseDef.isotopes d) (ParseDef.mass d)
    (ParseDef.symmetry_group d) (ParseDef.irreducible_representations d)
    (ParseDef.max_temp d) (ParseDef.num_pressure_broadeners d)
    (ParseDef.dipole_availability d) (ParseDef.num_cross_sections d)
    (ParseDef.num_k_coefficients d) (ParseDef.lifetime_availability d)
    (ParseDef.lande_factor_availability d) (ParseDef.num_states d)
    (ParseDef.quanta_cases d) (ParseDef.quanta d)
    (ParseDef.num_transitions d) (ParseDef.num_trans_files d)
    (ParseDef.max_wavenumber d) (ParseDef.high_energy_complete d).

(** ** Inputs of the examples *)

Module Examples.

(** Stand-ins for the built-in [int] and [float]: an optional sign followed
    by one or more decimal digits. *)
Fixpoint digits_value (s : string) (acc : Z) : option Z :=
  match s with
  | EmptyString => Some acc
  | String c s' =>
      match Ascii.is_nat c with
      | Some d => digits_value s' (10 * acc + Z.of_nat d)
      | None => None
      end
  end.

Definition int (s : string) : option Z :=
  match s with
  | EmptyString => None
  | String "-" (String c s') => Z.opp <$> digits_value (String c s') 0
  | String "+" (String c s') => digits_value (String c s') 0
  | _ => digits_value s 0
  end%char.

Definition float (s : string) : option Q := inject_Z <$> int s.

Definition int_type : Utils.val_type := fun s => Utils.PInt <$> int s.

(** A stand-in for pyvalem's [Formula]: it knows one formula. *)
Definition formula_natoms (s : string) : string + Z :=
  if String.eqb s "(40Ca)(1H)" then inr 2 else inl "Invalid formula".

(** The lines of the docstring of [parse_exomol_line] *)
Definition lns : list string :=
  ["1      # comment1"; "val2   # comment2"; "val3             ";
   "val4   # comment4"].

(** A definition file with two atoms, one irreducible representation, the
    lifetime flag set and two quanta *)
Definition def_lines : list string :=
  ["EXOMOL.def       # ID";
   "(40Ca)(1H)       # IsoFormula";
   "40Ca-1H          # Iso-slug";
   "Yadin            # Isotopologue dataset name";
   "20160726         # Version number with format YYYYMMDD";
   "PLPJJOQXLKVQQW   # Inchi key of molecule";
   "2                # Number of atoms";
   "40               # Isotope number 1";
   "Ca               # Element symbol 1";
   "1                # Isotope number 2";
   "H                # Element symbol 2";
   "40 6.80e-26      # Isotopologue mass (Da) and (kg)";
   "C2v              # Symmetry group";
   "1                # Number of irreducible representations";
   "1                # Irreducible representation ID";
   "A1               # Irreducible representation label";
   "1                # Nuclear spin degeneracy";
   "3000             # Maximum temperature of linelist";
   "0                # No. of pressure broadeners available";
   "0                # Dipole availability (1=yes, 0=no)";
   "0                # No. of cross section files available";
   "0                # No. of k-coefficient files available";
   "1                # Lifetime availability (1=yes, 0=no)";
   "0                # Lande g-factor availability (1=yes, 0=no)";
   "1892             # No. of states in .states file";
   "1                # No. of quanta cases";
   "dcs              # Quantum case label";
   "2                # No. of quanta defined";
   "par              # Quantum label 1";
   "A1               # Format quantum label 1";
   "total parity     # Description quantum label 1";
   "v                # Quantum label 2";
   "I3               # Format quantum label 2";
   "vibration        # Description quantum label 2";
   "26980            # Total number of transitions";
   "1                # No. of transition files";
   "15278            # Maximum wavenumber (in cm-1)";
   "15278            # Higher energy with complete set of transitions (in cm-1)"].

(** The text of a file from its lines, each ended by a newline *)
Definition unlines (ls : list string) : string :=
  foldr (fun l text => l +:+ String "010" text) "" ls.

(** A dataset directory as [MoleculeInput] expects it: every directory
    and file is there, one [.trans] file matches the pattern, the
    definition file parses (and nothing else does), the [.states] file
    has five columns and the [.trans] file four. *)
Definition EXOMOL_DATA_DIR : ReadInputs.path := ["data"; "exomol"].

Definition ds_root : ReadInputs.path :=
  EXOMOL_DATA_DIR ++ ["CaH"; "40Ca-1H"; "Yadin"].

Definition def_path : ReadInputs.path :=
  ds_root ++ ["40Ca-1H__Yadin.def"].

Definition states_path : ReadInputs.path :=
  ds_root ++ ["40Ca-1H__Yadin.states.bz2"].

Definition trans_path : ReadInputs.path :=
  ds_root ++ ["40Ca-1H__Yadin.trans.bz2"].

Definition parsed_def : ReadInputs.DefParser :=
  ReadInputs.mkDefParser false false ["v"].

Definition fs : ReadInputs.filesystem :=
  ReadInputs.mkFilesystem
    (fun _ => true)
    (fun _ => true)
    (fun _ _ => [trans_path])
    (fun p => if bool_decide (p = def_path) then Some parsed_def else None)
    (fun p => if bool_decide (p = states_path) then 5 else 4).

(** Keyword arguments without a states header *)
Definition kw_from_def : ReadInputs.kwargs Z :=
  ReadInputs.mkKwargs (Some "CaH") (Some "40Ca-1H") (Some "Yadin") None
    [] ["v"] None [].

(** Keyword arguments whose two resolve lists share ["v"] *)
Definition kw_overlap : ReadInputs.kwargs Z :=
  ReadInputs.mkKwargs (Some "CaH") (Some "40Ca-1H") (Some "Yadin")
    (Some ["i"; "E"; "g_tot"; "J"; "v"]) ["v"] ["v"] None [].

(** Keyword arguments with no resolve list at all *)
Definition kw_no_resolve : ReadInputs.kwargs Z :=
  ReadInputs.mkKwargs (Some "CaH") (Some "40Ca-1H") (Some "Yadin")
    (Some ["i"; "E"; "g_tot"; "J"; "v"]) [] [] None [].

(** Keyword arguments that keep only the states with [J = 0] *)
Definition kw_only_J : ReadInputs.kwargs Z :=
  ReadInputs.mkKwargs (Some "CaH") (Some "40Ca-1H") (Some "Yadin")
    (Some ["i"; "E"; "g_tot"; "J"; "v"]) [] ["v"] None [("J", 0)].

(** A validated input: one resolved quantum ["v"], no [only_with], and
    an energy ceiling of 50. *)
Definition molecule_input : ReadInputs.MoleculeInput Z :=
  ReadInputs.mkMoleculeInput "CaH" "CaH" "40Ca-1H" "Yadin"
    ["i"; "E"; "g_tot"; "J"; "v"] [] ["v"] (Some 50%Q) []
    def_path states_path [trans_path] None.

(** The processor that [DatasetProcessor] makes of it *)
Definition processor : ProcessDataset.DatasetProcessor Z :=
  ProcessDataset.mkDatasetProcessor "CaH" ["i"; "E"; "g_tot"; "J"; "v"]
    [] ["v"] [] (Some 50%Q) ["v"] None ∅ ∅.

(** Rows [i, E, g_tot, J, v] *)
Definition row (i : Z) (E g_tot J : Q) (v : Z) : ProcessDataset.state_row Z :=
  ProcessDataset.mkRow i E g_tot J [v].

(** The group of the weighted-mean example: [v = 0] with
    [(E, J, g_tot)] = (10, 0, 2), (10, 0, 3), (12, 1, 5) *)
Definition group_v0 : list (ProcessDataset.state_row Z) :=
  [row 1 10 2 0 0; row 2 10 3 0 0; row 3 12 5 1 0].

(** Two rows of one lump with the same [E] and [J] *)
Definition two_rows : list (ProcessDataset.state_row Z) :=
  [row 1 10 2 0 0; row 2 10 3 0 0].

(** A table with two lumps and a row above the ceiling *)
Definition table : list (ProcessDataset.state_row Z) :=
  row 4 60 1 0 1 :: group_v0 ++ [row 5 20 1 0 1].



(** Keyword arguments with a header and one resolved label *)
Definition kw_overlap_free : ReadInputs.kwargs Z :=
  ReadInputs.mkKwargs (Some "CaH") (Some "40Ca-1H") (Some "Yadin")
    (Some ["i"; "E"; "g_tot"; "J"; "v"]) [] ["v"] (Some 50%Q) [].

End Examples.

(* ===================================================================== *)
(** * The line reader *)
(* ===================================================================== *)

Section LineReader.

Import Utils.

(* let [simpl] compute appends of string literals *)
Local Arguments String.append !_ _ / : simpl nomatch.

Lemma drop_blank_suffix lines :
  exists pre, lines = pre ++ drop_blank lines /\ forallb blank pre = true.
Proof.
  induction lines as [|l rest [pre [Heq Hpre]]]; simpl.
  - exists []. done.
  - destruct (blank l) eqn:Hl.
    + exists (l :: pre). simpl. rewrite Hl, Hpre. by rewrite <- Heq.
    + exists []. done.
Qed.

Lemma pop_line_spec lines n_orig file_name raise_warnings warns :
  exists warns',
    pop_line lines n_orig file_name raise_warnings warns =
    (tail (drop_blank lines), warns',
     match drop_blank lines with
     | [] => None
     | l :: rest => Some (strip l, n_orig - Z.of_nat (length rest))
     end).
Proof.
  revert warns. induction lines as [|l rest IH]; intros warns; simpl.
  - by eexists.
  - unfold blank. destruct (truthy (strip l)); simpl.
    + by eexists.
    + apply IH.
Qed.

(** In a file [orig] read down to some point, the first non-blank line
    left is line [length orig - length rest] of the file, counting from
    one, where [rest] is what follows it. *)
Lemma drop_blank_position (orig : list string) k l rest :
  drop_blank (drop k orig) = l :: rest ->
  orig !! Z.to_nat (Z.of_nat (length orig) - Z.of_nat (length rest) - 1)
    = Some l.
Proof.
  intros Hd.
  destruct (drop_blank_suffix (drop k orig)) as [pre [Heq _]].
  rewrite Hd in Heq.
  assert (Ho : orig = (take k orig ++ pre) ++ l :: rest).
  { rewrite <- (take_drop k orig) at 1. rewrite Heq. by rewrite <- app_assoc. }
  rewrite Ho at 2. rewrite list_lookup_middle; [done|].
  rewrite Ho at 1. rewrite length_app. simpl. lia.
Qed.

(** C10. Whatever its outcome, a call of [parse_exomol_line] leaves the
    caller's list without its leading blank lines and without the first
    non-blank line: the lines are popped before anything can fail, and
    neither [ExomolLineCommentError] nor [ExomolLineValueError] puts the
    offending line back. *)
Theorem parse_exomol_line_pops
    lines n_orig expected_comment file_name vt raise_warnings :
  lines_after
    (parse_exomol_line lines n_orig expected_comment file_name vt
       raise_warnings)
  = tail (drop_blank lines).
Proof.
  unfold parse_exomol_line.
  destruct (pop_line_spec lines n_orig file_name raise_warnings [])
    as [warns' ->].
  destruct (drop_blank lines) as [|l rest]; [done|].
  destruct (split_hash_space (strip l)) as [|val [|comment [|? ?]]]; try done.
  by destruct vt as [conv|]; [destruct (conv (strip val))|].
Qed.

Lemma line_message_carries what n f :
  let msg := (what +:+ " on line " +:+ str_of_int n) +:+ " in " +:+ f in
  carries_line_number msg n /\ carries_file_label msg f.
Proof.
  split.
  - exists (what +:+ " on "), (" in " +:+ f).
    induction what as [|c what IH]; simpl; [done|]. by f_equal.
  - by eexists.
Qed.

(** C9 (amended). With a file label, the two failures on a line are
    reported with the number of that line in the file and with the label:
    a line that does not split in two at ["# "] as
    [ExomolLineCommentError], a value that [val_type] refuses as
    [ExomolLineValueError].  Running out of lines is an
    [ExomolLineValueError] too, with the message "Run out of lines" and
    the label only; it is never an [ExomolLineCommentError], and its
    message differs from the one of a malformed line. *)
Theorem parse_exomol_line_failures (orig : list string) (k : nat)
    (f : string) expected_comment vt raise_warnings :
  truthy f = true ->
  let lines := drop k orig in
  let o := parse_exomol_line lines (Z.of_nat (length orig)) expected_comment
             (Some f) vt raise_warnings in
  match drop_blank lines with
  | [] =>
      result o = inl (ExomolLineValueError ("Run out of lines in " +:+ f))
      /\ carries_file_label ("Run out of lines in " +:+ f) f
      /\ (forall m, result o <> inl (ExomolLineCommentError m))
      /\ (forall tail_,
            "Run out of lines in " +:+ f
            <> "Unexpected line format detected on line " +:+ tail_)
  | l :: rest =>
      let n := Z.of_nat (length orig) - Z.of_nat (length rest) in
      orig !! Z.to_nat (n - 1) = Some l /\
      match split_hash_space (strip l) with
      | [val; _] =>
          forall conv, vt = Some conv -> conv (strip val) = None ->
            let msg := ("Unexpected value type detected on line "
                        +:+ str_of_int n) +:+ " in " +:+ f in
            result o = inl (ExomolLineValueError msg)
            /\ carries_line_number msg n /\ carries_file_label msg f
      | _ =>
          let msg := ("Unexpected line format detected on line "
                      +:+ str_of_int n) +:+ " in " +:+ f in
          result o = inl (ExomolLineCommentError msg)
          /\ carries_line_number msg n /\ carries_file_label msg f
      end
  end.
Proof.
  intros Hf. cbv zeta. unfold parse_exomol_line.
  destruct (pop_line_spec (drop k orig) (Z.of_nat (length orig)) (Some f)
              raise_warnings []) as [warns' ->].
  destruct (drop_blank (drop k orig)) as [|l rest] eqn:Hd.
  - unfold in_file. rewrite Hf. simpl. repeat split; try done.
    by exists "Run out of lines".
  - split; [by eapply drop_blank_position|].
    assert (Hfmt := line_message_carries "Unexpected line format detected"
                      (Z.of_nat (length orig) - Z.of_nat (length rest)) f).
    assert (Hval := line_message_carries "Unexpected value type detected"
                      (Z.of_nat (length orig) - Z.of_nat (length rest)) f).
    unfold in_file. rewrite Hf.
    destruct (split_hash_space (strip l)) as [|val [|comment [|? ?]]];
      simpl; try (split; [done|apply Hfmt]).
    intros conv -> ->. split; [done|apply Hval].
Qed.

Lemma parse_exomol_line_failures_witness :
  result (parse_exomol_line (drop 2 Examples.lns) 4 None (Some "C60.def")
            None false)
  = inl (ExomolLineCommentError
           "Unexpected line format detected on line 3 in C60.def")
  /\ Examples.lns !! 2%nat = Some "val3             ".
Proof.
  pose proof (parse_exomol_line_failures Examples.lns 2 "C60.def" None None
                false eq_refl) as Hw.
  cbv zeta in Hw.
  change (drop_blank (drop 2 Examples.lns))
    with ["val3             "; "val4   # comment4"] in Hw.
  destruct Hw as [Hpos [Hres _]]. split; [exact Hres | exact Hpos].
Defined.

(** C9, as stated, fails when the lines run out: the error then names no
    line at all. *)
Lemma exhaustion_names_no_line :
  let o := parse_exomol_line [] 4 (Some "IsoFormula") (Some "foo.def") None
             false in
  result o = inl (ExomolLineValueError "Run out of lines in foo.def")
  /\ ~ (forall e, result o = inl e ->
         exists n, carries_line_number (exn_message e) n).
Proof.
  split; [reflexivity|].
  intros Hclaim.
  destruct (Hclaim _ eq_refl) as [n [before [after Heq]]].
  simpl in Heq.
  repeat (destruct before as [|? before]; simpl in Heq;
          [discriminate Heq | injection Heq as _ Heq]).
  destruct before; discriminate Heq.
Qed.

(** The examples of the docstring, one call after the other on the same
    list *)
Example docstring_line_1 :
  parse_exomol_line Examples.lns 4 (Some "comment1") None
    (Some Examples.int_type) false
  = Outcome (drop 1 Examples.lns) [] (inr (PInt 1)).
Proof. reflexivity. Qed.

Example docstring_line_2 :
  parse_exomol_line (drop 1 Examples.lns) 4 (Some "comment2") None None false
  = Outcome (drop 2 Examples.lns) [] (inr (PStr "val2")).
Proof. reflexivity. Qed.

Example docstring_line_3 :
  parse_exomol_line (drop 2 Examples.lns) 4 None (Some "C60.def") None false
  = Outcome (drop 3 Examples.lns) []
      (inl (ExomolLineCommentError
              "Unexpected line format detected on line 3 in C60.def")).
Proof. reflexivity. Qed.

Example docstring_line_4 :
  parse_exomol_line (drop 3 Examples.lns) 4 (Some "comment4") (Some "foo")
    (Some Examples.int_type) false
  = Outcome [] []
      (inl (ExomolLineValueError
              "Unexpected value type detected on line 4 in foo")).
Proof. reflexivity. Qed.

End LineReader.

(* ===================================================================== *)
(** * The definition reader *)
(* ===================================================================== *)

Section DefinitionReader.

Import ParseDef.

(** The header of [ExomolDef]: the four fixed columns, ["tau"] and ["g_J"]
    as the two flags say, then the labels of the quanta in their order. *)
Lemma get_states_header_shape (d : ExomolDef) :
  get_states_header d
  = ["i"; "E"; "g_tot"; "J"]
    ++ (if lifetime_availability d then ["tau"] else [])
    ++ (if lande_factor_availability d then ["g_J"] else [])
    ++ map label (quanta d).
Proof.
  unfold get_states_header, get_states_header_mandatory, get_quanta_labels.
  by destruct (lifetime_availability d), (lande_factor_availability d).
Qed.

(** A line error that leaves the body is raised again as
    [ExomolDefParseError], with the same message. *)
Lemma catch_line_errors_wraps {A} (m : M A) lines warns lines' warns' e :
  m lines warns = (lines', warns', inl (LineError e)) ->
  catch_line_errors m lines warns
  = (lines', warns', inl (ExomolDefParseError (Utils.exn_message e))).
Proof. unfold catch_line_errors. by intros ->. Qed.

Example parse_example_def :
  exists d,
    _parse_exomol_def_raw Examples.int Examples.float Examples.formula_natoms
      (Examples.unlines Examples.def_lines) "40Ca-1H__Yadin.def" true
    = ([], inr d)
    /\ get_states_header d = ["i"; "E"; "g_tot"; "J"; "tau"; "par"; "v"]
    /\ isotopes d = [mkIsotope 40 "Ca"; mkIsotope 1 "H"].
Proof. eexists. split; [vm_compute; reflexivity|]. by vm_compute. Qed.

(** A file that stops after its first field: the error names the file and
    no line. *)
Example parse_truncated_def :
  _parse_exomol_def_raw Examples.int Examples.float Examples.formula_natoms
    (Examples.unlines (take 1 Examples.def_lines)) "foo.def" false
  = ([], inl (ExomolDefParseError "Run out of lines in foo.def")).
Proof. vm_compute. reflexivity. Qed.

(** A version that is not a number: the error names line 5 of the file. *)
Example parse_def_bad_version :
  _parse_exomol_def_raw Examples.int Examples.float Examples.formula_natoms
    (Examples.unlines
       (take 4 Examples.def_lines ++ ["July 2016   # Version number"]))
    "foo.def" false
  = ([], inl (ExomolDefParseError
                "Unexpected value type detected on line 5 in foo.def")).
Proof. vm_compute. reflexivity. Qed.

(** A mass that is not a number is converted outside [parse_line]: the
    [ValueError] of [float] leaves the function as it is. *)
Example parse_def_bad_mass :
  _parse_exomol_def_raw Examples.int Examples.float Examples.formula_natoms
    (Examples.unlines
       (take 11 Examples.def_lines ++ ["heavy   # Isotopologue mass"]))
    "foo.def" false
  = ([], inl PyValueError).
Proof. vm_compute. reflexivity. Qed.

End DefinitionReader.

(* ===================================================================== *)
(** * The molecule input resolver *)
(* ===================================================================== *)

Section Resolver.

Import ReadInputs.

Context {V : Type}.
Variable root : path.
Variable world : filesystem.

Lemma fails_bind {A B} (m : IO A) (k : A -> IO B) :
  (forall a, fails (k a)) -> fails (bind m k).
Proof.
  intros Hk. destruct m as [t [e|a]]; simpl.
  - by exists t, e.
  - destruct (Hk a) as [t' [e ->]]. by exists (t ++ t'), e.
Qed.

Lemma fails_raise_if {B} why (k : unit -> IO B) :
  fails (bind (raise_if true why) k).
Proof. by exists [], (MoleculeInputError why). Qed.

Lemma bind_raise_if_false {B} why (k : unit -> IO B) :
  bind (raise_if false why) k = k tt.
Proof. simpl. by destruct (k tt). Qed.

Lemma bind_access_trace {A B} op (a : A) (k : A -> IO B) :
  (bind (access op a) k).1 = op :: (k a).1.
Proof. simpl. by destruct (k a). Qed.

Lemma intersects_true (a b : list string) x :
  x ∈ a -> x ∈ b -> intersects a b = true.
Proof.
  intros Ha Hb. apply existsb_exists. exists x. split.
  - by apply list_elem_of_In.
  - by apply bool_decide_eq_true.
Qed.

(** The header that [MoleculeInput] derives: the parser of exomole is
    run on the path it is handed, and the header is built from what the
    parser found. *)
Lemma states_column_names_derived (sp : path) :
  (get_states_column_names world None sp).1 = [ParseDefFile sp]
  /\ forall dp, parse_def world sp = Some dp ->
       (get_states_column_names world None sp).2 =
       inr (["i"; "E"; "g_tot"; "J"]
            ++ (if lifetime_availability dp then ["tau"] else [])
            ++ (if lande_factor_availability dp then ["g_J"] else [])
            ++ get_quanta_labels dp, Some dp).
Proof.
  unfold get_states_column_names. split.
  - simpl. by destruct (parse_def world sp).
  - intros dp ->. simpl.
    by destruct (lifetime_availability dp), (lande_factor_availability dp).
Qed.

(** C7 (amended). A configuration with no resolve list, or with a label
    in both lists, is never accepted.  With no resolve list the
    constructor raises [MoleculeInputError] without having touched the
    file system.  The common label is found later: when the three
    mandatory slugs are there, the molecule directory has been looked up
    by then. *)
Theorem MoleculeInput_rejects_bad_resolve (molecule_formula : string)
    (kw : kwargs V) :
  (kw_resolve_el kw = [] /\ kw_resolve_vib kw = []) \/
  (exists x, x ∈ kw_resolve_el kw /\ x ∈ kw_resolve_vib kw) ->
  exists t e,
    MoleculeInput_init root world molecule_formula kw = (t, inl e)
    /\ (kw_resolve_el kw = [] /\ kw_resolve_vib kw = [] ->
        t = [] /\ exists why, e = MoleculeInputError why)
    /\ ((exists x, x ∈ kw_resolve_el kw /\ x ∈ kw_resolve_vib kw) ->
        truthy_attr (kw_mol_slug kw) && truthy_attr (kw_iso_slug kw)
          && truthy_attr (kw_dataset_name kw) = true ->
        exists t', t = IsDir (child root (default "" (kw_mol_slug kw))) :: t').
Proof.
  intros Hbad.
  assert (Hfails : fails (MoleculeInput_init root world molecule_formula kw)).
  { unfold MoleculeInput_init. destruct Hbad as [[Hel Hvib] | [x [Hel Hvib]]].
    - apply fails_bind; intros _. rewrite Hel, Hvib. apply fails_raise_if.
    - cbv zeta. do 15 (apply fails_bind; intros ?).
      rewrite (intersects_true _ _ x Hel Hvib). apply fails_raise_if. }
  destruct Hfails as [t [e Heq]]. exists t, e. split; [exact Heq|]. split.
  - intros [Hel Hvib]. revert Heq. unfold MoleculeInput_init.
    destruct (truthy_attr (kw_mol_slug kw) && truthy_attr (kw_iso_slug kw)
              && truthy_attr (kw_dataset_name kw)); simpl.
    + rewrite Hel, Hvib. simpl. intros [= <- <-]. eauto.
    + intros [= <- <-]. eauto.
  - intros [x [Hel Hvib]] Hmand.
    assert (Htr : t = (MoleculeInput_init root world molecule_formula kw).1)
      by by rewrite Heq.
    rewrite Htr. unfold MoleculeInput_init. rewrite Hmand.
    rewrite bind_raise_if_false.
    destruct (kw_resolve_el kw) as [|y el']; [by apply elem_of_nil in Hel|].
    cbn [length Nat.eqb negb orb]. rewrite bind_raise_if_false.
    cbv zeta. rewrite bind_access_trace. eauto.
Qed.

Lemma trace_bind {A B} (op : fs_op) (m : IO A) (k : A -> IO B) :
  op ∈ (bind m k).1 -> op ∈ m.1 \/ exists a, op ∈ (k a).1.
Proof.
  destruct m as [t [e|a]]; simpl; [by left|].
  destruct (k a) as [t' r] eqn:Hk. simpl.
  intros [?|?]%elem_of_app; [by left|right].
  exists a. by rewrite Hk.
Qed.

Lemma trace_raise_if (op : fs_op) cond why : op ∉ (raise_if cond why).1.
Proof. destruct cond; apply not_elem_of_nil. Qed.

Lemma trace_access {A} (op op' : fs_op) (a : A) :
  op ∈ (access op' a).1 -> op = op'.
Proof. by intros ?%list_elem_of_singleton. Qed.

(** Whatever the configuration and the directory, the only file that the
    constructor ever hands to the definition parser is the [.states.bz2]
    file of the dataset. *)
Lemma parser_only_sees_states_path (molecule_formula : string)
    (kw : kwargs V) p :
  ParseDefFile p ∈ (MoleculeInput_init root world molecule_formula kw).1 ->
  let iso := default "" (kw_iso_slug kw) in
  let ds := default "" (kw_dataset_name kw) in
  p = child (child (child (child root (default "" (kw_mol_slug kw))) iso) ds)
        ((iso +:+ "__" +:+ ds) +:+ ".states.bz2").
Proof.
  unfold MoleculeInput_init. cbv zeta. intros Htr.
  repeat (apply trace_bind in Htr as [Htr|[? Htr]];
          [first [by apply trace_raise_if in Htr
                 |by apply trace_access in Htr]|]).
  apply trace_bind in Htr as [Htr|[? Htr]].
  - unfold get_states_column_names in Htr.
    destruct (kw_states_header kw).
    + apply trace_bind in Htr as [Htr|[? Htr]];
        [by apply trace_raise_if in Htr|by apply elem_of_nil in Htr].
    + apply trace_bind in Htr as [Htr|[[dp|] Htr]].
      * apply trace_access in Htr. by injection Htr.
      * by apply elem_of_nil in Htr.
      * by apply elem_of_nil in Htr.
  - repeat (apply trace_bind in Htr as [Htr|[? Htr]];
            [first [by apply trace_raise_if in Htr
                   |by apply trace_access in Htr]|]).
    by apply elem_of_nil in Htr.
Qed.

End Resolver.

Section ResolverExamples.

Import ReadInputs.

Lemma MoleculeInput_rejects_bad_resolve_witness :
  (exists why,
     MoleculeInput_init Examples.EXOMOL_DATA_DIR Examples.fs "CaH"
       Examples.kw_no_resolve = ([], inl (MoleculeInputError why)))
  /\ (exists t e,
        MoleculeInput_init Examples.EXOMOL_DATA_DIR Examples.fs "CaH"
          Examples.kw_overlap
        = (IsDir (Examples.EXOMOL_DATA_DIR ++ ["CaH"]) :: t, inl e)).
Proof.
  split.
  - destruct (MoleculeInput_rejects_bad_resolve Examples.EXOMOL_DATA_DIR
                Examples.fs "CaH" Examples.kw_no_resolve
                (or_introl (conj eq_refl eq_refl)))
      as [t [e [Heq [Hempty _]]]].
    destruct (Hempty (conj eq_refl eq_refl)) as [-> [why ->]].
    by exists why.
  - assert (Hx : exists x, x ∈ kw_resolve_el Examples.kw_overlap
                           /\ x ∈ kw_resolve_vib Examples.kw_overlap).
    { exists "v". split; apply list_elem_of_here. }
    destruct (MoleculeInput_rejects_bad_resolve Examples.EXOMOL_DATA_DIR
                Examples.fs "CaH" Examples.kw_overlap (or_intror Hx))
      as [t [e [Heq [_ Hover]]]].
    destruct (Hover Hx eq_refl) as [t' ->].
    by exists t', e.
Defined.

(** C7, as stated, fails for a label in both lists: the directories, the
    files and the pattern have all been looked up before the constructor
    raises. *)
Lemma overlap_rejected_after_file_access :
  MoleculeInput_init Examples.EXOMOL_DATA_DIR Examples.fs "CaH"
    Examples.kw_overlap
  = ([IsDir (Examples.EXOMOL_DATA_DIR ++ ["CaH"]);
      IsDir (Examples.EXOMOL_DATA_DIR ++ ["CaH"; "40Ca-1H"]);
      IsDir Examples.ds_root;
      IsFile Examples.def_path;
      IsFile Examples.states_path;
      Glob Examples.ds_root "40Ca-1H__Yadin*.trans.bz2"],
     inl (MoleculeInputError CommonResolveValues))
  /\ ~ (exists why,
         MoleculeInput_init Examples.EXOMOL_DATA_DIR Examples.fs "CaH"
           Examples.kw_overlap = ([], inl (MoleculeInputError why))).
Proof.
  assert (Heq : MoleculeInput_init Examples.EXOMOL_DATA_DIR Examples.fs "CaH"
                  Examples.kw_overlap
                = ([IsDir (Examples.EXOMOL_DATA_DIR ++ ["CaH"]);
                    IsDir (Examples.EXOMOL_DATA_DIR ++ ["CaH"; "40Ca-1H"]);
                    IsDir Examples.ds_root;
                    IsFile Examples.def_path;
                    IsFile Examples.states_path;
                    Glob Examples.ds_root "40Ca-1H__Yadin*.trans.bz2"],
                   inl (MoleculeInputError CommonResolveValues)))
    by (vm_compute; reflexivity).
  split; [exact Heq|]. rewrite Heq. intros [why Hwhy]. discriminate Hwhy.
Qed.

(** C6. Without a states header in the configuration, the parser is run
    on the path of the [.states.bz2] file, not on the [.def] file that
    was located just before: in a dataset directory whose definition file
    parses, the constructor ends in [DefParseError]. *)
Theorem header_parsed_from_states_path :
  parse_def Examples.fs Examples.def_path = Some Examples.parsed_def
  /\ MoleculeInput_init Examples.EXOMOL_DATA_DIR Examples.fs "CaH"
       Examples.kw_from_def
     = ([IsDir (Examples.EXOMOL_DATA_DIR ++ ["CaH"]);
         IsDir (Examples.EXOMOL_DATA_DIR ++ ["CaH"; "40Ca-1H"]);
         IsDir Examples.ds_root;
         IsFile Examples.def_path;
         IsFile Examples.states_path;
         Glob Examples.ds_root "40Ca-1H__Yadin*.trans.bz2";
         ParseDefFile Examples.states_path],
        inl DefParseError).
Proof. split; vm_compute; reflexivity. Qed.

(** C8. A configuration that filters on ["J"] is accepted by
    [MoleculeInput] and refused by [DatasetProcessor], which looks for
    the keys of [only_with] among [states_header[4:]], where ["J"] is
    not. *)
Theorem only_with_J_refused_by_processor :
  exists t mi,
    MoleculeInput_init Examples.EXOMOL_DATA_DIR Examples.fs "CaH"
      Examples.kw_only_J = (t, inr mi)
    /\ only_with mi = [("J", 0)]
    /\ states_header mi = ["i"; "E"; "g_tot"; "J"; "v"]
    /\ ProcessDataset.DatasetProcessor_init mi
       = inl (ProcessDataset.MoleculeInputError
                (ProcessDataset.Unrecognised "only_with")).
Proof. do 2 eexists. split; [vm_compute; reflexivity|]. by vm_compute. Qed.

End ResolverExamples.

(* ===================================================================== *)
(** * The state-lumping engine *)
(* ===================================================================== *)

Section Lumping.

Import ProcessDataset.

Context {V : Type} {V_eq_dec : EqDecision V} {V_countable : Countable V}.
Variable self : DatasetProcessor V.

Implicit Types (r : state_row V) (df chunk : list (state_row V)).
Implicit Types (k g : list V) (l2o : gmap (list V) (gset Z)).
Implicit Types (groups : list (list V * list (state_row V))).

(** ** groupby *)

Lemma add_to_group_inv k r groups k' df' :
  (k', df') ∈ add_to_group k r groups ->
  (k' = k /\ (df' = [r] \/ exists df, (k, df) ∈ groups /\ df' = r :: df))
  \/ (k', df') ∈ groups.
Proof.
  induction groups as [|[k0 df0] groups IH]; simpl.
  - intros Hin. apply list_elem_of_singleton in Hin.
    injection Hin as -> ->. left. split; [done|by left].
  - destruct (decide (k = k0)) as [->|Hne].
    + intros [[= -> ->]|Hin]%elem_of_cons.
      * left. split; [done|]. right. exists df0. split; [left|done].
      * right. by right.
    + intros [[= -> ->]|Hin]%elem_of_cons.
      * right. left.
      * destruct (IH Hin) as [[-> [->|[df [Hdf ->]]]]|Hin'].
        -- left. split; [done|]. by left.
        -- left. split; [done|]. right. exists df. split; [by right|done].
        -- right. by right.
Qed.

Lemma add_to_group_new k r groups :
  exists df, (k, df) ∈ add_to_group k r groups /\ r ∈ df.
Proof.
  induction groups as [|[k0 df0] groups [df [Hin Hr]]]; simpl.
  - exists [r]. split; left.
  - destruct (decide (k = k0)) as [->|Hne].
    + exists (r :: df0). split; left.
    + exists df. split; [by right|done].
Qed.

Lemma add_to_group_keeps k r groups k' df r' :
  (k', df) ∈ groups -> r' ∈ df ->
  exists df', (k', df') ∈ add_to_group k r groups /\ r' ∈ df'.
Proof.
  induction groups as [|[k0 df0] groups IH]; simpl.
  - by intros ?%elem_of_nil.
  - intros [[= -> ->]|Hin]%elem_of_cons Hr'.
    + destruct (decide (k = k0)) as [->|Hne].
      * exists (r :: df0). split; [left|by right].
      * exists df0. split; [left|done].
    + destruct (decide (k = k0)) as [->|Hne].
      * exists df. split; [by right|done].
      * destruct (IH Hin Hr') as [df' [Hin' Hr'']].
        exists df'. split; [by right|done].
Qed.

(** Every group is non-empty and holds rows of the chunk with its key. *)
Lemma groupby_sound chunk k df :
  (k, df) ∈ groupby self chunk ->
  df <> [] /\ forall r, r ∈ df -> r ∈ chunk /\ lumped_key self r = Some k.
Proof.
  revert k df. induction chunk as [|r0 chunk IH]; intros k df; simpl.
  - by intros ?%elem_of_nil.
  - destruct (lumped_key self r0) as [k0|] eqn:Hk0.
    + intros [[-> [->|[df0 [Hin ->]]]]|Hin]%add_to_group_inv.
      * split; [done|]. intros r ->%list_elem_of_singleton.
        split; [left|done].
      * destruct (IH _ _ Hin) as [_ Hdf0]. split; [done|].
        intros r [->|Hr]%elem_of_cons; [split; [left|done]|].
        destruct (Hdf0 r Hr). split; [by right|done].
      * destruct (IH _ _ Hin) as [Hne Hdf]. split; [done|].
        intros r Hr. destruct (Hdf r Hr). split; [by right|done].
    + intros Hin. destruct (IH _ _ Hin) as [Hne Hdf]. split; [done|].
      intros r Hr. destruct (Hdf r Hr). split; [by right|done].
Qed.

(** Every row of the chunk that has a key is in the group of its key. *)
Lemma groupby_complete chunk r k :
  r ∈ chunk -> lumped_key self r = Some k ->
  exists df, (k, df) ∈ groupby self chunk /\ r ∈ df.
Proof.
  induction chunk as [|r0 chunk IH]; simpl.
  - by intros ?%elem_of_nil.
  - intros [->|Hr]%elem_of_cons Hk.
    + rewrite Hk. apply add_to_group_new.
    + destruct (IH Hr Hk) as [df [Hin Hrdf]].
      destruct (lumped_key self r0) as [k0|]; [|by exists df].
      by eapply add_to_group_keeps.
Qed.

(** ** _process_state_group and apply *)

Lemma elem_of_map {A B} (f : A -> B) (l : list A) (y : B) :
  y ∈ map f l <-> exists a, a ∈ l /\ f a = y.
Proof.
  rewrite list_elem_of_In, in_map_iff.
  split; intros (a & ? & ?); exists a; by rewrite ?list_elem_of_In in *.
Qed.

Lemma E_min_cons r df : exists e, E_min (r :: df) = Some e.
Proof. by eexists. Qed.


Lemma group_members l2o df k g x :
  df <> [] -> (forall r, r ∈ df -> lumped_key self r = Some k) ->
  x ∈ members (_process_state_group self l2o df).1 g <->
  x ∈ members l2o g \/ (g = k /\ exists r, r ∈ df /\ i r = x).
Proof.
  intros Hne Hkey. destruct df as [|r0 df']; [done|].
  unfold _process_state_group. cbn [E_min fst].
  rewrite (Hkey r0) by left. unfold members.
  destruct (decide (g = k)) as [->|Hgk].
  - rewrite lookup_insert_eq. unfold default at 1. cbn [from_option id].
    rewrite elem_of_union, elem_of_list_to_set, elem_of_map.
    split; (intros [?|?]; [by left|right]); [done|by destruct_and!].
  - rewrite lookup_insert_ne by done.
    split; [by left|]. by intros [?|[? _]].
Qed.

Lemma apply_groups_members groups l2o g x :
  keyed self groups ->
  x ∈ members (apply_groups self groups l2o).1 g <->
  x ∈ members l2o g \/ exists df r, (g, df) ∈ groups /\ r ∈ df /\ i r = x.
Proof.
  revert l2o. induction groups as [|[k df] groups IH]; intros l2o Hkeyed.
  - simpl. split; [by left|]. intros [?|(? & ? & ?%elem_of_nil & _)]; done.
  - simpl.
    destruct (_process_state_group self l2o df) as [l2o1 s] eqn:Hpsg.
    specialize (IH l2o1).
    destruct (apply_groups self groups l2o1) as [l2o2 frame] eqn:Happ.
    simpl in *. rewrite IH by (intros ? ? ?; apply Hkeyed; by right).
    destruct (Hkeyed k df) as [Hne Hkey]; [left|].
    replace l2o1 with (_process_state_group self l2o df).1 by by rewrite Hpsg.
    rewrite (group_members l2o df k g x Hne Hkey).
    split.
    + intros [[?|[-> (r & ? & ?)]]|(df' & r & ? & ? & ?)].
      * by left.
      * right. exists df, r. split; [left|done].
      * right. exists df', r. split; [by right|done].
    + intros [?|(df' & r & [[= -> ->]|?]%elem_of_cons & ? & ?)].
      * left. by left.
      * left. right. split; [done|]. by exists r.
      * right. by exists df', r.
Qed.


Lemma groupby_keyed chunk : keyed self (groupby self chunk).
Proof.
  intros k df Hin. destruct (groupby_sound _ _ _ Hin) as [Hne Hdf].
  split; [done|]. intros r Hr. by destruct (Hdf r Hr).
Qed.

Lemma elem_of_bool_filter (f : state_row V -> bool) chunk r :
  r ∈ List.filter f chunk <-> r ∈ chunk /\ f r = true.
Proof. rewrite !list_elem_of_In. apply filter_In. Qed.

(** ** The loop *)

(** What one chunk adds to the map: the indices of its rows that pass the
    mask, each under the key of its row. *)
Lemma lump_chunk_members l2o chunk g x :
  x ∈ members (lump_chunk self l2o chunk).1 g <->
  x ∈ members l2o g \/
  exists r, r ∈ chunk /\ mask self r = true
            /\ lumped_key self r = Some g /\ i r = x.
Proof.
  unfold lump_chunk. rewrite apply_groups_members by apply groupby_keyed.
  split; (intros [?|Hr]; [by left|right]).
  - destruct Hr as (df & r & Hin & Hr & Hx).
    destruct (groupby_sound _ _ _ Hin) as [_ Hdf].
    destruct (Hdf r Hr) as [[? ?]%elem_of_bool_filter ?]. by exists r.
  - destruct Hr as (r & Hr & Hm & Hk & Hx).
    destruct (groupby_complete (List.filter (mask self) chunk) r g)
      as [df [Hin Hrdf]]; [by apply elem_of_bool_filter|done|].
    by exists df, r.
Qed.

Lemma process_chunk_members st chunk g x :
  x ∈ members (process_chunk self st chunk).2 g <->
  x ∈ members st.2 g \/
  exists r, r ∈ chunk /\ mask self r = true
            /\ lumped_key self r = Some g /\ i r = x.
Proof.
  destruct st as [lumped l2o]. unfold process_chunk.
  rewrite <- (lump_chunk_members l2o chunk g x).
  destruct (lump_chunk self l2o chunk). reflexivity.
Qed.

Lemma foldl_process_chunk_members chunks st g x :
  x ∈ members (foldl (process_chunk self) st chunks).2 g <->
  x ∈ members st.2 g \/
  exists r, r ∈ concat chunks /\ mask self r = true
            /\ lumped_key self r = Some g /\ i r = x.
Proof.
  revert st. induction chunks as [|chunk chunks IH]; intros st; simpl.
  - split; [by left|]. intros [?|(? & ?%elem_of_nil & _)]; done.
  - rewrite IH, process_chunk_members. split.
    + intros [[?|(r & ? & ?)]|(r & ? & ?)]; [by left|right; exists r..];
        (split; [apply elem_of_app|done]); [by left|by right].
    + intros [?|(r & [?|?]%elem_of_app & ?)].
      * left. by left.
      * left. right. by exists r.
      * right. by exists r.
Qed.

(** ** No lump is recorded without a member *)

Lemma group_inhabited l2o df :
  inhabited_sets l2o -> inhabited_sets (_process_state_group self l2o df).1.
Proof.
  intros Hinh. destruct df as [|r0 df]; [done|].
  unfold _process_state_group. cbn [E_min fst].
  destruct (lumped_key self r0) as [k|]; [|done].
  intros g S. destruct (decide (g = k)) as [->|Hne].
  - rewrite lookup_insert_eq. intros [= <-]. exists (i r0).
    change (list_to_set (map i (r0 :: df)))
      with ({[i r0]} ∪ list_to_set (C:=gset Z) (map i df)).
    set_solver.
  - rewrite lookup_insert_ne by done. apply Hinh.
Qed.

Lemma apply_groups_inhabited groups l2o :
  inhabited_sets l2o -> inhabited_sets (apply_groups self groups l2o).1.
Proof.
  revert l2o. induction groups as [|[k df] groups IH]; intros l2o Hinh.
  - done.
  - simpl. pose proof (group_inhabited l2o df Hinh) as H1.
    destruct (_process_state_group self l2o df) as [l2o1 s].
    specialize (IH l2o1 H1).
    by destruct (apply_groups self groups l2o1).
Qed.

Lemma foldl_process_chunk_inhabited chunks st :
  inhabited_sets st.2 ->
  inhabited_sets (foldl (process_chunk self) st chunks).2.
Proof.
  revert st. induction chunks as [|chunk chunks IH]; intros st Hinh; [done|].
  simpl. apply IH. destruct st as [lumped l2o]. unfold process_chunk.
  pose proof (apply_groups_inhabited
                (groupby self (List.filter (mask self) chunk)) l2o Hinh) as H1.
  unfold lump_chunk.
  by destruct (apply_groups self
                 (groupby self (List.filter (mask self) chunk)) l2o).
Qed.

Lemma process_states_maps chunks :
  states_map_lumped_to_original (process_states self chunks)
  = (foldl (process_chunk self)
       (∅, states_map_lumped_to_original self) chunks).2
  /\ states_map_original_to_lumped (process_states self chunks)
     = states_map_original_to_lumped self.
Proof.
  unfold process_states.
  by destruct (foldl (process_chunk self)
                 (∅, states_map_lumped_to_original self) chunks).
Qed.



(** ** Rows and keys *)


Lemma issubset_elem (a b : list string) q :
  ReadInputs.issubset a b = true -> q ∈ a -> q ∈ b.
Proof.
  unfold ReadInputs.issubset. rewrite forallb_forall.
  intros Hall Hq. apply list_elem_of_In in Hq.
  specialize (Hall q Hq). by apply bool_decide_eq_true in Hall.
Qed.



End Lumping.

Section Chunking.

Import ProcessDataset.

Context {A : Type}.

Lemma concat_chunks_upto (n fuel : nat) (l : list A) :
  (0 < n)%nat -> (length l <= fuel)%nat ->
  concat (chunks_upto fuel n l) = l.
Proof.
  intros Hn. revert l. induction fuel as [|fuel IH]; intros l Hl.
  - destruct l; [done|]. simpl in Hl. lia.
  - destruct l as [|a l]; [done|].
    change (chunks_upto (S fuel) n (a :: l))
      with (take n (a :: l) :: chunks_upto fuel n (drop n (a :: l))).
    simpl concat. rewrite IH; [apply take_drop|].
    rewrite length_drop. simpl in *. lia.
Qed.

(** A reader with a positive chunk size yields the whole table, in
    order. *)
Lemma concat_chunked (n : nat) (l : list A) :
  (0 < n)%nat -> concat (chunked n l) = l.
Proof. intros Hn. by apply concat_chunks_upto. Qed.

End Chunking.

Section IndexMaps.

Import ProcessDataset.

Context {V : Type} {V_eq_dec : EqDecision V} {V_countable : Countable V}.

Implicit Types (self : DatasetProcessor V) (r : state_row V).
Implicit Types (g : list V) (l2o : gmap (list V) (gset Z)).

Lemma elem_of_members l2o g x :
  x ∈ members l2o g <-> exists S, l2o !! g = Some S /\ x ∈ S.
Proof.
  unfold members. destruct (l2o !! g) as [S|]; simpl.
  - split; [by exists S|]. by intros (? & [= <-] & ?).
  - split; [by intros ?%not_elem_of_empty|]. by intros (? & [=] & _).
Qed.

(** What [__init__] guarantees *)
Lemma DatasetProcessor_init_fields mi self :
  DatasetProcessor_init mi = inr self ->
  states_map_lumped_to_original self = ∅
  /\ states_map_original_to_lumped self = ∅
  /\ (forall q, q ∈ resolved_quanta self ->
                q ∈ drop 4 (states_header self)).
Proof.
  unfold DatasetProcessor_init.
  destruct (_ && _); [discriminate|].
  match goal with |- context [find ?f ?l] =>
    destruct (find f l) as [[name quanta]|] eqn:Hfind end; [discriminate|].
  intros [= <-]. cbn [states_map_lumped_to_original
    states_map_original_to_lumped resolved_quanta states_header].
  split; [done|]. split; [done|].
  intros q [Hq|Hq]%elem_of_app.
  - eapply issubset_elem; [|exact Hq].
    apply negb_false_iff.
    apply (find_none _ _ Hfind ("resolve_el", ReadInputs.resolve_el mi)).
    by left.
  - eapply issubset_elem; [|exact Hq].
    apply negb_false_iff.
    apply (find_none _ _ Hfind ("resolve_vib", ReadInputs.resolve_vib mi)).
    right. by left.
Qed.

(** A key ["J"] in [only_with] is refused by [__init__], unless the header
    names a second column ["J"] after the first four. *)
Lemma DatasetProcessor_init_refuses_J (mi : ReadInputs.MoleculeInput V) :
  "J" ∈ map fst (ReadInputs.only_with mi) ->
  "J" ∉ drop 4 (ReadInputs.states_header mi) ->
  exists why, DatasetProcessor_init mi = inl (MoleculeInputError why).
Proof.
  intros HJ Hnot. unfold DatasetProcessor_init.
  destruct (_ && _); [by eexists|].
  match goal with |- context [find ?f ?l] =>
    destruct (find f l) as [[name quanta]|] eqn:Hfind end; [by eexists|].
  exfalso. apply Hnot. eapply issubset_elem; [|exact HJ].
  apply negb_false_iff.
  apply (find_none _ _ Hfind
           ("only_with", map fst (ReadInputs.only_with mi))).
  right. right. by left.
Qed.

(** After the loop, the map holds, under each key, the indices of the rows
    that passed the mask and have that key. *)
Lemma process_states_members self chunks g x :
  states_map_lumped_to_original self = ∅ ->
  x ∈ members (states_map_lumped_to_original (process_states self chunks)) g
  <-> exists r, r ∈ concat chunks /\ mask self r = true
                /\ lumped_key self r = Some g /\ i r = x.
Proof.
  intros Hempty. destruct (process_states_maps self chunks) as [-> _].
  rewrite foldl_process_chunk_members. cbn [snd]. rewrite Hempty.
  unfold members at 1. rewrite lookup_empty. simpl.
  split; [|by right]. by intros [?%not_elem_of_empty|?].
Qed.

Lemma process_states_inhabited self chunks :
  states_map_lumped_to_original self = ∅ ->
  inhabited_sets (states_map_lumped_to_original (process_states self chunks)).
Proof.
  intros Hempty. destruct (process_states_maps self chunks) as [-> _].
  apply foldl_process_chunk_inhabited. cbn [snd]. rewrite Hempty.
  intros g S. by rewrite lookup_empty.
Qed.

(** Two maps without empty sets that have the same members are equal. *)
Lemma inhabited_sets_eq l2o1 l2o2 :
  inhabited_sets l2o1 -> inhabited_sets l2o2 ->
  (forall g x, x ∈ members l2o1 g <-> x ∈ members l2o2 g) ->
  l2o1 = l2o2.
Proof.
  intros H1 H2 Hmem. apply map_eq. intros g.
  assert (Hside : forall a b : gmap (list V) (gset Z),
            inhabited_sets a ->
            (forall x, x ∈ members a g <-> x ∈ members b g) ->
            forall S, a !! g = Some S -> b !! g = Some S).
  { intros a b Ha Hab S HS. destruct (Ha g S HS) as [x Hx].
    assert (Hxb : x ∈ members b g).
    { apply Hab. apply elem_of_members. by exists S. }
    apply elem_of_members in Hxb as (S' & HS' & _). rewrite HS'. f_equal.
    apply set_eq. intros y. split.
    - intros Hy. assert (Hya : y ∈ members a g).
      { apply Hab, elem_of_members. by exists S'. }
      apply elem_of_members in Hya as (? & ? & ?). congruence.
    - intros Hy. assert (Hyb : y ∈ members b g).
      { apply Hab, elem_of_members. by exists S. }
      apply elem_of_members in Hyb as (? & ? & ?). congruence. }
  destruct (l2o1 !! g) as [S|] eqn:Hg1.
  - symmetry. by apply (Hside l2o1 l2o2 H1 (Hmem g)).
  - destruct (l2o2 !! g) as [S|] eqn:Hg2; [|done].
    assert (l2o1 !! g = Some S); [|congruence].
    apply (Hside l2o2 l2o1 H2); [|done]. intros x. symmetry. apply Hmem.
Qed.

(** The part of chunk-size invariance that holds: the map
    [states_map_lumped_to_original] is the same for every positive chunk
    size. *)
Lemma lumped_to_original_chunk_invariant self
    (table : list (state_row V)) (n m : nat) :
  states_map_lumped_to_original self = ∅ ->
  (0 < n)%nat -> (0 < m)%nat ->
  states_map_lumped_to_original (process_states self (chunked n table))
  = states_map_lumped_to_original (process_states self (chunked m table)).
Proof.
  intros Hempty Hn Hm.
  apply inhabited_sets_eq; try by apply process_states_inhabited.
  intros g x. rewrite !process_states_members by done.
  by rewrite !concat_chunked.
Qed.


(** C3 (amended). [process_states] never writes to
    [states_map_original_to_lumped]: after the pass it is as empty as
    [__init__] made it, so that whatever it maps is in the set of its
    lump.  The map that is built chunk by chunk is
    [states_map_lumped_to_original]: a chunk adds the indices of its
    surviving rows to the sets of their keys and removes nothing. *)
Theorem original_to_lumped_stays_empty mi self
    (chunks : list (list (state_row V))) :
  DatasetProcessor_init mi = inr self ->
  let after := process_states self chunks in
  states_map_original_to_lumped after = ∅
  /\ (forall x g,
        states_map_original_to_lumped after !! x = Some g ->
        exists S, states_map_lumped_to_original after !! g = Some S /\ x ∈ S)
  /\ (forall chunk g x,
        x ∈ members (states_map_lumped_to_original
                       (process_states self (chunks ++ [chunk]))) g <->
        x ∈ members (states_map_lumped_to_original after) g \/
        exists r, r ∈ chunk /\ mask self r = true
                  /\ lumped_key self r = Some g /\ i r = x).
Proof.
  intros Hinit after.
  destruct (DatasetProcessor_init_fields _ _ Hinit) as (Hl2o & Ho2l & _).
  assert (Hempty : states_map_original_to_lumped after = ∅).
  { unfold after. destruct (process_states_maps self chunks) as [_ ->].
    exact Ho2l. }
  split; [exact Hempty|]. split.
  - intros x g. by rewrite Hempty, lookup_empty.
  - intros chunk g x. unfold after.
    destruct (process_states_maps self chunks) as [-> _].
    destruct (process_states_maps self (chunks ++ [chunk])) as [-> _].
    rewrite foldl_app. simpl. apply process_chunk_members.
Qed.

End IndexMaps.

Section Merge.

Import ProcessDataset.

Context {V : Type} {V_eq_dec : EqDecision V} {V_countable : Countable V}.

Implicit Types (lumped frame : gmap (list V) lumped_row) (k : list V).



(** ** Sums are in lowest terms *)





End Merge.

(* ===================================================================== *)
(** * The engine on the example tables *)
(* ===================================================================== *)

Section EngineExamples.

Import ProcessDataset.

Lemma processor_from_init :
  DatasetProcessor_init Examples.molecule_input = inr Examples.processor.
Proof. reflexivity. Qed.




Lemma original_to_lumped_stays_empty_witness :
  states_map_original_to_lumped
    (process_states Examples.processor (chunked 2 Examples.table)) = ∅.
Proof.
  exact (proj1 (original_to_lumped_stays_empty Examples.molecule_input
                  Examples.processor (chunked 2 Examples.table)
                  processor_from_init)).
Defined.

(** C3, as stated, fails as soon as one row survives: its index is in the
    set of its lump, and [states_map_original_to_lumped] does not map
    it. *)
Lemma original_to_lumped_misses_index :
  let after := process_states Examples.processor [[Examples.row 1 10 2 0 0]] in
  states_map_lumped_to_original after !! [0] = Some {[1]}
  /\ states_map_original_to_lumped after !! 1 = None
  /\ ~ (forall x g S,
          states_map_lumped_to_original after !! g = Some S -> x ∈ S ->
          states_map_original_to_lumped after !! x = Some g).
Proof.
  assert (Hl : states_map_lumped_to_original
                 (process_states Examples.processor
                    [[Examples.row 1 10 2 0 0]]) !! [0] = Some {[1]})
    by (vm_compute; reflexivity).
  assert (Ho : states_map_original_to_lumped
                 (process_states Examples.processor
                    [[Examples.row 1 10 2 0 0]]) !! 1 = None)
    by (vm_compute; reflexivity).
  split; [exact Hl|]. split; [exact Ho|].
  intros Hclaim.
  specialize (Hclaim 1 [0] {[1]} Hl (proj2 (elem_of_singleton 1 1) eq_refl)).
  rewrite Ho in Hclaim. discriminate Hclaim.
Qed.

(** C4. The group with [(E, J, g_tot)] = (10, 0, 2), (10, 0, 3),
    (12, 1, 5): the J at the lowest energy is 0, the sums are 2 + 3 and
    10 * 2 + 10 * 3 whatever the weight of the third row, the same as
    without that row, and the lumped energy is 10, for the group read as
    one chunk and for the third row read in a chunk before the other
    two. *)
Theorem weighted_mean_of_example_group :
  (forall g_tot3 : Q,
     (_process_state_group Examples.processor ∅
        [Examples.row 1 10 2 0 0; Examples.row 2 10 3 0 0;
         Examples.row 3 12 g_tot3 1 0]).2
     = mkLumped (Some 0%Q) (Some 5%Q) (Some 50%Q))
  /\ (_process_state_group Examples.processor ∅ Examples.group_v0).2
     = (_process_state_group Examples.processor ∅ Examples.two_rows).2
  /\ lumped_states (process_states Examples.processor [Examples.group_v0])
       ≫= (fun frame => frame !! [0])
     = Some (mkFinal (Some 0%Q) (Some 10%Q))
  /\ lumped_states
       (process_states Examples.processor
          [drop 2 Examples.group_v0; take 2 Examples.group_v0])
       ≫= (fun frame => frame !! [0])
     = Some (mkFinal (Some 0%Q) (Some 10%Q)).
Proof.
  split; [|split; [|split]].
  - intros g_tot3. vm_compute. reflexivity.
  - vm_compute. reflexivity.
  - vm_compute. reflexivity.
  - vm_compute. reflexivity.
Qed.

(** C1. Two rows of one lump with the same energy and J: read as one
    chunk they lump to the energy 10; read one row at a time, the second
    chunk neither resets the lump nor finds its running row in the new
    frame, and the lumped energy is NaN. *)
Theorem chunk_size_changes_result :
  lumped_states (process_states Examples.processor
                   (chunked 2 Examples.two_rows))
    ≫= (fun frame => frame !! [0])
  = Some (mkFinal (Some 0%Q) (Some 10%Q))
  /\ lumped_states (process_states Examples.processor
                      (chunked 1 Examples.two_rows))
       ≫= (fun frame => frame !! [0])
     = Some (mkFinal None None)
  /\ process_states Examples.processor (chunked 1 Examples.two_rows)
     <> process_states Examples.processor (chunked 2 Examples.two_rows).
Proof.
  assert (H2 : lumped_states (process_states Examples.processor
                                (chunked 2 Examples.two_rows))
                 ≫= (fun frame => frame !! [0])
               = Some (mkFinal (Some 0%Q) (Some 10%Q)))
    by (vm_compute; reflexivity).
  assert (H1 : lumped_states (process_states Examples.processor
                                (chunked 1 Examples.two_rows))
                 ≫= (fun frame => frame !! [0])
               = Some (mkFinal None None))
    by (vm_compute; reflexivity).
  split; [exact H2|]. split; [exact H1|].
  intros Heq. rewrite Heq, H2 in H1. discriminate H1.
Qed.



End EngineExamples.

(* ===================================================================== *)
(** * More on the line reader *)
(* ===================================================================== *)

Section LineReaderMore.

Import Utils.

Local Arguments String.append !_ _ / : simpl nomatch.

(** ** Strings *)

Lemma rev_app_append (s acc : string) :
  String.rev_app s acc = String.rev_app s "" +:+ acc.
Proof.
  revert acc. induction s as [|c s IH]; intros acc; simpl; [done|].
  rewrite (IH (String c acc)), (IH (String c "")).
  generalize (String.rev_app s ""). intros t.
  induction t as [|d t IHt]; simpl; [done|]. by rewrite IHt.
Qed.

Lemma rev_cons (c : ascii) (s : string) :
  String.rev (String c s) = String.rev s +:+ String c "".
Proof. unfold String.rev. simpl. apply rev_app_append. Qed.

Lemma append_assoc (a b c : string) : (a +:+ b) +:+ c = a +:+ b +:+ c.
Proof. induction a as [|x a IH]; simpl; [done|]. by rewrite IH. Qed.

Lemma split_go_join (n : nat) (s cur : string) :
  (String.length s <= n)%nat ->
  join_hash_space (split_go s cur) = String.rev cur +:+ s.
Proof.
  revert s cur. induction n as [|n IH]; intros s cur Hn.
  - destruct s; [|simpl in Hn; lia]. simpl.
    generalize (String.rev cur). intros t.
    induction t as [|d t IHt]; simpl; [done|]. by rewrite <- IHt.
  - destruct s as [|c s].
    { simpl. generalize (String.rev cur). intros t.
      induction t as [|d t IHt]; simpl; [done|]. by rewrite <- IHt. }
    assert (Hstep : join_hash_space (split_go s (String c cur))
                    = String.rev cur +:+ String c s).
    { rewrite IH by (simpl in Hn; lia). rewrite rev_cons, append_assoc.
      done. }
    destruct (Ascii.ascii_dec c "#") as [->|Hc].
    + destruct s as [|d s]; [exact Hstep|].
      destruct (Ascii.ascii_dec d " ") as [->|Hd].
      * change (split_go (String "#" (String " " s)) cur)
          with (String.rev cur :: split_go s "").
        assert (Hrest : join_hash_space (split_go s "") = s).
        { rewrite IH by (simpl in Hn; lia). done. }
        destruct (split_go s "") as [|p ps] eqn:Hsp.
        -- simpl in Hrest. subst s. by destruct cur.
        -- change (join_hash_space (String.rev cur :: p :: ps))
             with (String.rev cur +:+ "# " +:+ join_hash_space (p :: ps)).
           by rewrite Hrest.
      * replace (split_go (String "#" (String d s)) cur)
          with (split_go (String d s) (String "#" cur)); [exact Hstep|].
        destruct d as [[] [] [] [] [] [] [] []]; try done.
    + replace (split_go (String c s) cur)
        with (split_go s (String c cur)); [exact Hstep|].
      destruct c as [[] [] [] [] [] [] [] []]; try done.
Qed.

(** Joining the pieces of a line with ["# "] gives the line back, and
    there is always at least one piece. *)
Theorem split_hash_space_join (s : string) :
  join_hash_space (split_hash_space s) = s /\ split_hash_space s <> [].
Proof.
  split.
  - unfold split_hash_space. by rewrite (split_go_join (String.length s)).
  - unfold split_hash_space. generalize "". induction s as [|c s IH].
    + done.
    + intros cur. destruct c as [[] [] [] [] [] [] [] []];
        try apply IH; destruct s as [|d s]; try apply IH;
        destruct d as [[] [] [] [] [] [] [] []]; try apply IH; done.
Qed.

Lemma lstrip_cases (s : string) :
  (lstrip s = "" /\ all_whitespace s = true)
  \/ (exists c t, lstrip s = String c t /\ is_whitespace c = false
                  /\ all_whitespace s = false).
Proof.
  induction s as [|c s IH]; simpl; [by left|].
  destruct (is_whitespace c) eqn:Hc; simpl; [exact IH|].
  right. by exists c, s.
Qed.

Lemma all_whitespace_app (a b : string) :
  all_whitespace (a +:+ b) = all_whitespace a && all_whitespace b.
Proof.
  induction a as [|c a IH]; simpl; [done|].
  by rewrite IH, andb_assoc.
Qed.

Lemma all_whitespace_rev (s : string) :
  all_whitespace (String.rev s) = all_whitespace s.
Proof.
  induction s as [|c s IH]; [done|].
  rewrite rev_cons, all_whitespace_app, IH. simpl.
  rewrite andb_true_r. apply andb_comm.
Qed.

Lemma rev_empty (s : string) : String.rev s = "" -> s = "".
Proof.
  destruct s as [|c s]; [done|]. rewrite rev_cons.
  by destruct (String.rev s).
Qed.

(** The lines that the reader passes over are the lines of whitespace
    only: nothing is left of a line after [strip] exactly when each of
    its characters is whitespace. *)
Theorem blank_iff_all_whitespace (l : string) :
  blank l = all_whitespace l.
Proof.
  unfold blank, strip, rstrip.
  destruct (lstrip_cases l) as [[-> ->]|(c & t & -> & Hc & ->)]; [done|].
  destruct (lstrip_cases (String.rev (String c t)))
    as [[_ Hall]|(d & u & -> & _ & _)].
  - rewrite all_whitespace_rev in Hall. simpl in Hall.
    by rewrite Hc in Hall.
  - destruct (String.rev (String d u)) eqn:Hrev; [|done].
    by apply rev_empty in Hrev.
Qed.

Lemma append_empty_r (s : string) : s +:+ "" = s.
Proof. induction s as [|c s IH]; simpl; [done|]. by rewrite IH. Qed.

Lemma rev_append (a b : string) :
  String.rev (a +:+ b) = String.rev b +:+ String.rev a.
Proof.
  induction a as [|c a IH]; simpl.
  - by rewrite append_empty_r.
  - by rewrite !rev_cons, IH, append_assoc.
Qed.

Lemma rev_involutive (s : string) : String.rev (String.rev s) = s.
Proof.
  induction s as [|c s IH]; [done|].
  by rewrite rev_cons, rev_append, IH.
Qed.

Lemma lstrip_decompose (s : string) :
  exists a, s = a +:+ lstrip s /\ all_whitespace a = true.
Proof.
  induction s as [|c s [a [Heq Ha]]]; simpl.
  - by exists "".
  - destruct (is_whitespace c) eqn:Hc.
    + exists (String c a). simpl. rewrite Hc, Ha. by rewrite <- Heq.
    + by exists "".
Qed.

Lemma rstrip_decompose (s : string) :
  exists b, s = rstrip s +:+ b /\ all_whitespace b = true.
Proof.
  unfold rstrip.
  destruct (lstrip_decompose (String.rev s)) as [a [Heq Ha]].
  exists (String.rev a). split.
  - rewrite <- rev_append, <- Heq. by rewrite rev_involutive.
  - by rewrite all_whitespace_rev.
Qed.

Lemma lstrip_id (s : string) :
  starts_with_whitespace s = false -> lstrip s = s.
Proof. destruct s as [|c s]; simpl; [done|]. by intros ->. Qed.

Lemma rstrip_id (s : string) :
  ends_with_whitespace s = false -> rstrip s = s.
Proof.
  unfold ends_with_whitespace, rstrip. intros Hs.
  by rewrite lstrip_id, rev_involutive.
Qed.

Lemma lstrip_starts (s : string) : starts_with_whitespace (lstrip s) = false.
Proof.
  by destruct (lstrip_cases s) as [[-> _]|(c & t & -> & Hc & _)].
Qed.

(** [strip] takes whitespace away from the two ends and nothing else: the
    string is its stripped form between two runs of whitespace, the
    stripped form neither starts nor ends with whitespace, and stripping
    it again changes nothing. *)
Theorem strip_spec (s : string) :
  (exists a b, s = a +:+ strip s +:+ b
               /\ all_whitespace a = true /\ all_whitespace b = true)
  /\ starts_with_whitespace (strip s) = false
  /\ ends_with_whitespace (strip s) = false
  /\ strip (strip s) = strip s.
Proof.
  assert (Hends : ends_with_whitespace (strip s) = false).
  { unfold ends_with_whitespace, strip, rstrip.
    rewrite rev_involutive. apply lstrip_starts. }
  assert (Hstarts : starts_with_whitespace (strip s) = false).
  { unfold strip.
    destruct (rstrip_decompose (lstrip s)) as [b [Heq Hb]].
    destruct (rstrip (lstrip s)) as [|c t] eqn:Hr; [done|].
    pose proof (lstrip_starts s) as Hl. rewrite Heq in Hl. exact Hl. }
  split; [|split; [done|split; [done|]]].
  - destruct (lstrip_decompose s) as [a [Hs Ha]].
    destruct (rstrip_decompose (lstrip s)) as [b [Hl Hb]].
    exists a, b. split; [|done]. unfold strip. by rewrite <- Hl.
  - unfold strip at 1. rewrite (lstrip_id _ Hstarts). by apply rstrip_id.
Qed.

(** ** Warnings and values *)

Lemma pop_line_full lines n_orig file_name raise_warnings warns :
  pop_line lines n_orig file_name raise_warnings warns =
  (tail (drop_blank lines),
   warns ++ (if raise_warnings
             then empty_line_warnings lines n_orig file_name else []),
   match drop_blank lines with
   | [] => None
   | l :: rest => Some (strip l, n_orig - Z.of_nat (length rest))
   end).
Proof.
  revert warns. induction lines as [|l rest IH]; intros warns; simpl.
  - destruct raise_warnings; by rewrite app_nil_r.
  - unfold blank. destruct (truthy (strip l)); simpl.
    + destruct raise_warnings; by rewrite app_nil_r.
    + rewrite IH. destruct raise_warnings; [|done].
      by rewrite <- app_assoc.
Qed.

(** X1. The comment and the warning switch are for warnings only: neither
    the expected comment nor [raise_warnings] changes what the call
    returns or raises, or what it leaves of the list; and with
    [raise_warnings] off no warning is issued at all. *)
Theorem parse_exomol_line_comment_only_warns
    lines n_orig file_name vt expected expected' raise_warnings raise_warnings' :
  let o := parse_exomol_line lines n_orig expected file_name vt
             raise_warnings in
  let o' := parse_exomol_line lines n_orig expected' file_name vt
              raise_warnings' in
  result o = result o' /\ lines_after o = lines_after o'
  /\ (raise_warnings = false -> warned o = []).
Proof.
  cbv zeta. unfold parse_exomol_line. rewrite !pop_line_full.
  destruct (drop_blank lines) as [|l rest]; simpl.
  - split; [done|]. split; [done|]. by intros ->.
  - destruct (split_hash_space (strip l)) as [|val [|comment [|? ?]]];
      simpl; try (split; [done|]; split; [done|]; by intros ->).
    destruct vt as [conv|]; [destruct (conv (strip val))|];
      simpl; (split; [done|]; split; [done|]); intros ->; simpl;
      by rewrite ?andb_false_r.
Qed.

(** X2. With [raise_warnings] on, the call warns once for every blank line it
    passes over, in order and with the number of the line, and once more
    exactly when it returns a value from a line whose comment is not the
    expected one. *)
Theorem parse_exomol_line_warnings lines n_orig expected file_name vt :
  let o := parse_exomol_line lines n_orig expected file_name vt true in
  exists last,
    warned o = empty_line_warnings lines n_orig file_name ++ last
    /\ length (empty_line_warnings lines n_orig file_name)
       = (length lines - length (drop_blank lines))%nat
    /\ (last = [] \/ exists w, last = [w])
    /\ (last <> [] <->
        exists v l rest val comment,
          result o = inr v /\ drop_blank lines = l :: rest
          /\ split_hash_space (strip l) = [val; comment]
          /\ comment_differs comment expected = true).
Proof.
  cbv zeta. unfold parse_exomol_line. rewrite pop_line_full. simpl.
  assert (Hlen : length (empty_line_warnings lines n_orig file_name)
                 = (length lines - length (drop_blank lines))%nat).
  { clear. induction lines as [|l rest IH]; simpl; [done|].
    destruct (blank l); simpl; [|lia]. rewrite IH.
    destruct (drop_blank_suffix rest) as [pre [Heq _]].
    assert (length (drop_blank rest) <= length rest)%nat; [|lia].
    rewrite Heq at 2. rewrite length_app. lia. }
  destruct (drop_blank lines) as [|l rest] eqn:Hd; simpl.
  - exists []. rewrite app_nil_r. repeat split; try done; [by left|].
    by intros (? & ? & ? & ? & ? & ? & ? & _).
  - destruct (split_hash_space (strip l)) as [|val [|comment [|? ?]]] eqn:Hsp;
      simpl;
      try (exists []; rewrite app_nil_r; repeat split; try done; [by left|];
           by intros (? & ? & ? & ? & ? & ? & ? & _)).
    destruct vt as [conv|]; [destruct (conv (strip val)) eqn:Hconv|]; simpl.
    + rewrite andb_true_r.
      destruct (comment_differs comment expected) eqn:Hc.
      * eexists [_]. repeat split; try done; [right; by eexists|].
        intros _. by exists p, l, rest, val, comment.
      * exists []. rewrite app_nil_r. repeat split; try done; [by left|].
        intros (? & l' & rest' & val' & comment' & _ & Hd' & Hsp' & Hc').
        injection Hd' as <- <-. rewrite Hsp in Hsp'.
        injection Hsp' as <- <-. congruence.
    + exists []. rewrite app_nil_r. repeat split; try done; [by left|].
      by intros (? & ? & ? & ? & ? & ? & _).
    + rewrite andb_true_r.
      destruct (comment_differs comment expected) eqn:Hc.
      * eexists [_]. repeat split; try done; [right; by eexists|].
        intros _. by exists (PStr (strip val)), l, rest, val, comment.
      * exists []. rewrite app_nil_r. repeat split; try done; [by left|].
        intros (? & l' & rest' & val' & comment' & _ & Hd' & Hsp' & Hc').
        injection Hd' as <- <-. rewrite Hsp in Hsp'.
        injection Hsp' as <- <-. congruence.
Qed.

(** X3. What a successful call returns: the first non-blank line, stripped, is
    the value text, ["# "] and the comment; the value is the value text,
    stripped, as [val_type] converts it, or as it is without [val_type]. *)
Theorem parse_exomol_line_value
    lines n_orig expected file_name vt raise_warnings v :
  result (parse_exomol_line lines n_orig expected file_name vt raise_warnings)
  = inr v ->
  exists l rest val comment,
    drop_blank lines = l :: rest
    /\ strip l = val +:+ "# " +:+ comment
    /\ match vt with
       | Some conv => conv (strip val) = Some v
       | None => v = PStr (strip val)
       end.
Proof.
  unfold parse_exomol_line. rewrite pop_line_full.
  destruct (drop_blank lines) as [|l rest]; simpl; [done|].
  destruct (split_hash_space (strip l)) as [|val [|comment [|? ?]]] eqn:Hsp;
    simpl; try done.
  pose proof (split_go_join (String.length (strip l)) (strip l) ""
                (Nat.le_refl _)) as Hjoin.
  fold (split_hash_space (strip l)) in Hjoin.
  rewrite Hsp in Hjoin. simpl in Hjoin.
  destruct vt as [conv|]; [destruct (conv (strip val)) eqn:Hconv|];
    simpl; try done; intros [= <-]; by exists l, rest, val, comment.
Qed.

Lemma parse_exomol_line_value_witness :
  exists l rest val comment,
    drop_blank (drop 1 Examples.lns) = l :: rest
    /\ strip l = val +:+ "# " +:+ comment
    /\ PStr "val2" = PStr (strip val).
Proof.
  exact (parse_exomol_line_value (drop 1 Examples.lns) 4 (Some "comment2")
           None None false (PStr "val2") eq_refl).
Defined.

End LineReaderMore.

(* ===================================================================== *)
(** * More on the definition reader *)
(* ===================================================================== *)

Section DefinitionReaderMore.

Import ParseDef.

Variable py_int : string -> option Z.
Variable py_float : string -> option Q.
Variable formula_natoms : string -> string + Z.
Variable file_name : string.
Variable raise_warnings : bool.
Variable n_orig : Z.

Local Abbreviation steady_here := (steady file_name raise_warnings n_orig).

Lemma steady_ret {A} (a : A) : steady_here (ret a).
Proof. intros ls ws ls' ws' r _ [= <- <- <-]. by repeat split. Qed.

Lemma steady_raise {A} (e : def_exn) :
  def_error_reported file_name n_orig e -> steady_here (@raise A e).
Proof.
  intros He ls ws ls' ws' r _ [= <- <- <-]. repeat split; try done.
  by intros ? [= <-].
Qed.

Lemma steady_bind {A B} (m : M A) (k : A -> M B) :
  steady_here m -> (forall a, steady_here (k a)) -> steady_here (bind m k).
Proof.
  intros Hm Hk ls ws ls' ws' r Hlen. unfold bind.
  destruct (m ls ws) as [[ls1 ws1] [e|a]] eqn:Hrun.
  - intros [= <- <- <-].
    destruct (Hm ls ws ls1 ws1 (inl e) Hlen Hrun) as (Hl1 & Hw1 & He1).
    repeat split; [done|done|]. intros e0 [= <-]. by apply He1.
  - intros Hrun2.
    destruct (Hm ls ws ls1 ws1 (inr a) Hlen Hrun) as (Hl1 & Hw1 & _).
    destruct (Hk a ls1 ws1 ls' ws' r) as (Hl2 & Hw2 & He2); [lia|done|].
    repeat split; [lia| |done].
    intros Hrw. by rewrite (Hw2 Hrw), (Hw1 Hrw).
Qed.

Lemma steady_for_range {A} (n : nat) (i0 : Z) (body : Z -> M A) :
  (forall i, steady_here (body i)) -> steady_here (for_range n i0 body).
Proof.
  intros Hbody. revert i0. induction n as [|n IH]; intros i0; simpl.
  - apply steady_ret.
  - apply steady_bind; [done|]. intros x.
    apply steady_bind; [done|]. intros xs. apply steady_ret.
Qed.

Lemma steady_parse_line_raw expected vt :
  steady_here (parse_line_raw file_name raise_warnings n_orig expected vt).
Proof.
  intros ls ws ls' ws' r Hlen. unfold parse_line_raw, Utils.parse_exomol_line.
  rewrite pop_line_full.
  destruct (drop_blank_suffix ls) as [pre [Hpre _]].
  assert (Hsuf : (length (drop_blank ls) <= length ls)%nat).
  { rewrite Hpre at 2. rewrite length_app. lia. }
  destruct (drop_blank ls) as [|l rest] eqn:Hd; simpl.
  - intros [= <- <- <-]. repeat split; [simpl; lia| |].
    + intros ->. by rewrite app_nil_r.
    + intros e [= <-]. by left.
  - assert (Hnum : 1 <= n_orig - Z.of_nat (length rest) <= n_orig)
      by (simpl in Hsuf; lia).
    destruct (Utils.split_hash_space (Utils.strip l))
      as [|val [|comment [|? ?]]]; simpl;
      try (intros [= <- <- <-]; repeat split; [simpl in Hsuf; lia| |];
           [intros ->; by rewrite app_nil_r
           |intros e [= <-]; right; eexists; split; [exact Hnum|by left]]).
    destruct vt as [conv|]; [destruct (conv (Utils.strip val))|]; simpl;
      intros [= <- <- <-]; (repeat split; [simpl in Hsuf; lia| |]);
      try (intros ->; simpl; by rewrite ?andb_false_r, app_nil_r);
      try done.
    intros e [= <-]. right. eexists. split; [exact Hnum|by right].
Qed.

Lemma steady_parse_line c :
  steady_here (parse_line file_name raise_warnings n_orig c).
Proof.
  apply steady_bind; [apply steady_parse_line_raw|]. intros. apply steady_ret.
Qed.

Lemma steady_parse_line_int c :
  steady_here (parse_line_int py_int file_name raise_warnings n_orig c).
Proof.
  apply steady_bind; [apply steady_parse_line_raw|]. intros. apply steady_ret.
Qed.

Lemma steady_parse_line_float c :
  steady_here (parse_line_float py_float file_name raise_warnings n_orig c).
Proof.
  apply steady_bind; [apply steady_parse_line_raw|]. intros. apply steady_ret.
Qed.

Lemma steady_float_of s : steady_here (float_of py_float s).
Proof.
  unfold float_of. destruct (py_float s); [apply steady_ret|].
  by apply steady_raise.
Qed.

Lemma steady_int_of s : steady_here (int_of py_int s).
Proof.
  unfold int_of. destruct (py_int s); [apply steady_ret|].
  by apply steady_raise.
Qed.

Lemma steady_parse_body raw :
  steady_here (parse_body py_int py_float formula_natoms file_name
                 raise_warnings n_orig raw).
Proof.
  unfold parse_body.
  repeat first
    [ apply steady_ret
    | apply steady_parse_line
    | apply steady_parse_line_int
    | apply steady_parse_line_float
    | apply steady_float_of
    | apply steady_int_of
    | apply steady_for_range; intros ?
    | apply steady_bind; [|intros ?]
    | match goal with
      | |- steady _ _ _ (match formula_natoms ?s with _ => _ end) =>
          destruct (formula_natoms s);
          [apply steady_raise; left; by eexists|]
      | |- steady _ _ _ (if bool_decide ?P then _ else _) =>
          destruct (bool_decide P);
          [|apply steady_raise; right; by do 2 eexists]
      | |- steady _ _ _ (match split_ws ?s ?c with _ => _ end) =>
          destruct (split_ws s c); [by apply steady_raise|]
      end ].
Qed.

Lemma steady_parse_def_raw raw ws r :
  _parse_exomol_def_raw py_int py_float formula_natoms raw file_name
    raise_warnings = (ws, r) ->
  exists ls' r0,
    parse_body py_int py_float formula_natoms file_name raise_warnings
      (Z.of_nat (length (split_newline raw ""))) raw
      (split_newline raw "") [] = (ls', ws, r0)
    /\ r = match r0 with
           | inl (LineError e) =>
               inl (ExomolDefParseError (Utils.exn_message e))
           | _ => r0
           end.
Proof.
  unfold _parse_exomol_def_raw, catch_line_errors.
  destruct (parse_body _ _ _ _ _ _ _ _ _) as [[ls' ws'] r0].
  destruct r0 as [[e| | |]|d]; intros [= <- <-]; by do 2 eexists.
Qed.

Lemma bind_inr {A B} (m : M A) (k : A -> M B) ls ws ls' ws' b :
  bind m k ls ws = (ls', ws', inr b) ->
  exists a ls1 ws1,
    m ls ws = (ls1, ws1, inr a) /\ k a ls1 ws1 = (ls', ws', inr b).
Proof.
  unfold bind. destruct (m ls ws) as [[ls1 ws1] [e|a]]; [done|].
  intros Hk. by exists a, ls1, ws1.
Qed.

Lemma for_range_length {A} (n : nat) (i0 : Z) (body : Z -> M A)
    ls ws ls' ws' xs :
  for_range n i0 body ls ws = (ls', ws', inr xs) -> length xs = n.
Proof.
  revert i0 ls ws ls' ws' xs.
  induction n as [|n IH]; intros i0 ls ws ls' ws' xs; simpl.
  - by intros [= _ _ <-].
  - intros (x & ls1 & ws1 & _ & Hrest)%bind_inr.
    apply bind_inr in Hrest as (xs' & ls2 & ws2 & Hxs & Hret).
    injection Hret as _ _ <-. simpl. f_equal. by eapply IH.
Qed.

End DefinitionReaderMore.

Section DefinitionReaderResults.

Import ParseDef.

Variable py_int : string -> option Z.
Variable py_float : string -> option Q.
Variable formula_natoms : string -> string + Z.

(** X5. With warnings off the definition reader issues none, whatever the
    text: neither for blank lines nor for comments that differ from the
    expected ones. *)
Theorem parse_def_silent raw file_name :
  (_parse_exomol_def_raw py_int py_float formula_natoms raw file_name
     false).1 = [].
Proof.
  destruct (_parse_exomol_def_raw py_int py_float formula_natoms raw
              file_name false) as [ws r] eqn:Hrun.
  apply steady_parse_def_raw in Hrun as (ls' & r0 & Hbody & _).
  eapply (steady_parse_body py_int py_float formula_natoms file_name false)
    in Hbody as (_ & Hws & _); [|lia].
  simpl. by apply Hws.
Qed.

(** X6. The errors of the definition reader.  No error of the line reader
    leaves it as such.  An [ExomolDefParseError] says that the lines ran
    out, or names a line between 1 and the number of lines of the text as
    malformed or as holding a value of the wrong type, or is one of the
    two messages about the formula; anything else is the [ValueError] or
    the [IndexError] of a conversion made outside the line reader. *)
Theorem parse_def_errors raw file_name raise_warnings ws e :
  _parse_exomol_def_raw py_int py_float formula_natoms raw file_name
    raise_warnings = (ws, inl e) ->
  match e with
  | LineError _ => False
  | ExomolDefParseError msg =>
      formula_error_reported file_name msg
      \/ exists le,
           line_error_reported file_name
             (Z.of_nat (length (split_newline raw ""))) le
           /\ msg = Utils.exn_message le
  | PyValueError | PyIndexError => True
  end.
Proof.
  intros Hrun.
  apply steady_parse_def_raw in Hrun as (ls' & r0 & Hbody & Hr).
  eapply (steady_parse_body py_int py_float formula_natoms file_name
            raise_warnings) in Hbody as (_ & _ & Herr); [|lia].
  destruct r0 as [[le|msg| |]|d]; try done; injection Hr as ->; try done.
  - right. exists le. split; [|done]. by apply (Herr (LineError le)).
  - left. by apply (Herr (ExomolDefParseError msg)).
Qed.

(** X7. What a successful parse guarantees about the atoms: the formula of the
    definition is one that [Formula] accepts, and the definition lists as
    many isotopes as the formula has atoms.  Its [raw_text] is the text
    that was parsed. *)
Theorem parse_def_atoms raw file_name raise_warnings ws d :
  _parse_exomol_def_raw py_int py_float formula_natoms raw file_name
    raise_warnings = (ws, inr d) ->
  raw_text d = raw
  /\ exists natoms,
       formula_natoms (iso_formula d) = inr natoms
       /\ length (isotopes d) = Z.to_nat natoms.
Proof.
  intros Hrun.
  apply steady_parse_def_raw in Hrun as (ls' & r0 & Hbody & Hr).
  destruct r0 as [[le|msg| |]|d0]; try done. injection Hr as ->.
  unfold parse_body in Hbody.
  repeat (apply bind_inr in Hbody as (? & ? & ? & ? & Hbody)).
  injection Hbody as _ _ <-. simpl.
  repeat match goal with
  | H : (match formula_natoms ?s with _ => _ end) _ _ = _ |- _ =>
      destruct (formula_natoms s) eqn:?; [discriminate H|];
      injection H as _ _ <-
  | H : (if bool_decide (?a = ?b) then _ else _) _ _ = _ |- _ =>
      destruct (bool_decide_reflect (a = b)); [|discriminate H]; clear H
  | H : for_range (Z.to_nat ?n) 0 _ _ _ = (_, _, inr _) |- _ =>
      apply for_range_length in H
  end.
  split; [done|]. eexists. split; [reflexivity|]. subst. assumption.
Qed.

End DefinitionReaderResults.

Lemma parse_def_errors_witness :
  formula_error_reported "foo.def" "Run out of lines in foo.def"
  \/ exists le,
       line_error_reported "foo.def"
         (Z.of_nat (length (ParseDef.split_newline
                              (Examples.unlines (take 1 Examples.def_lines))
                              ""))) le
       /\ "Run out of lines in foo.def" = Utils.exn_message le.
Proof.
  exact (parse_def_errors Examples.int Examples.float Examples.formula_natoms
           (Examples.unlines (take 1 Examples.def_lines)) "foo.def" false []
           (ParseDef.ExomolDefParseError "Run out of lines in foo.def")
           parse_truncated_def).
Defined.

Lemma parse_def_atoms_witness :
  exists d natoms,
    Examples.formula_natoms (ParseDef.iso_formula d) = inr natoms
    /\ length (ParseDef.isotopes d) = Z.to_nat natoms.
Proof.
  destruct parse_example_def as (d & Hd & _).
  destruct (parse_def_atoms _ _ _ _ _ _ _ d Hd) as (_ & natoms & Hn & Hlen).
  by exists d, natoms.
Defined.

(* ===================================================================== *)
(** * More on the molecule input resolver *)
(* ===================================================================== *)

Section ResolverMore.

Import ReadInputs.

Context {V : Type}.
Variable root : path.
Variable world : filesystem.

Lemma IO_bind_inr {A B} (m : IO A) (k : A -> IO B) t b :
  bind m k = (t, inr b) ->
  exists a t1 t2, m = (t1, inr a) /\ k a = (t2, inr b) /\ t = t1 ++ t2.
Proof.
  destruct m as [t1 [e|a]]; simpl; [done|].
  destruct (k a) as [t2 r] eqn:Hk. intros [= <- ->]. by exists a, t1, t2.
Qed.

Lemma raise_if_inr cond why t u :
  raise_if cond why = (t, inr u) -> cond = false /\ t = [].
Proof. destruct cond; [done|]. by intros [= <-]. Qed.

Lemma access_inr {A} op (a x : A) t :
  access op a = (t, inr x) -> x = a /\ t = [op].
Proof. by intros [= <- <-]. Qed.

Lemma intersects_false (a b : list string) q :
  intersects a b = false -> q ∈ a -> q ∉ b.
Proof.
  intros Hno Ha Hb. rewrite (intersects_true a b q Ha Hb) in Hno. done.
Qed.

Lemma elem_of_difference_list (a b : list string) q :
  q ∈ difference a b <-> q ∈ a /\ q ∉ b.
Proof. unfold difference. by rewrite list_elem_of_filter, (comm and). Qed.

Lemma after_mandatory (header : list string) q :
  take 4 header = ["i"; "E"; "g_tot"; "J"] ->
  q ∈ header -> q ∉ mandatory_columns -> q ∈ drop 4 header.
Proof.
  intros Htake Hq Hnot. rewrite <- (take_drop 4 header) in Hq.
  apply elem_of_app in Hq as [Hq|Hq]; [|done].
  destruct Hnot. rewrite Htake in Hq. unfold mandatory_columns.
  repeat (apply elem_of_cons in Hq as [->|Hq]; [set_solver|]).
  by apply elem_of_nil in Hq.
Qed.

Lemma states_column_names_start explicit sp t header dp :
  get_states_column_names world explicit sp = (t, inr (header, dp)) ->
  take 4 header = ["i"; "E"; "g_tot"; "J"]
  /\ (explicit = None -> t = [ParseDefFile sp] /\ is_Some dp)
  /\ (forall h, explicit = Some h -> t = [] /\ header = h /\ dp = None).
Proof.
  unfold get_states_column_names. destruct explicit as [h|].
  - intros (u & t1 & t2 & Hif & Hret & ->)%IO_bind_inr.
    apply raise_if_inr in Hif as [Hif ->]. injection Hret as <- <- <-.
    apply negb_false_iff, bool_decide_eq_true in Hif.
    split; [done|]. split; [done|]. by intros ? [= <-].
  - intros (parsed & t1 & t2 & Hacc & Hret & ->)%IO_bind_inr.
    apply access_inr in Hacc as [-> ->].
    destruct (parse_def world sp) as [p|]; [|done].
    injection Hret as <- <- <-.
    split; [by destruct (lifetime_availability p),
                        (lande_factor_availability p)|].
    split; [by intros _|done].
Qed.

Lemma MoleculeInput_init_checked (molecule_formula : string)
    (kw : kwargs V) t mi :
  MoleculeInput_init root world molecule_formula kw = (t, inr mi) ->
  (resolve_el mi <> [] \/ resolve_vib mi <> [])
  /\ (forall q, q ∈ resolve_el mi -> q ∉ resolve_vib mi)
  /\ take 4 (states_header mi) = ["i"; "E"; "g_tot"; "J"]
  /\ (forall q, q ∈ resolve_el mi ++ resolve_vib mi ->
        q ∈ drop 4 (states_header mi) /\ q ∉ mandatory_columns)
  /\ (forall q, q ∈ map fst (only_with mi) ->
        q = "J" \/ (q ∈ drop 4 (states_header mi) /\ q ∉ mandatory_columns))
  /\ is_file world (def_path mi) = true
  /\ is_file world (states_path mi) = true
  /\ get_num_columns world (states_path mi)
     = Z.of_nat (length (states_header mi))
  /\ (exists p, head (trans_paths mi) = Some p
       /\ (get_num_columns world p = 3 \/ get_num_columns world p = 4)).
Proof.
  unfold MoleculeInput_init. cbv zeta. intros Hrun.
  repeat (apply IO_bind_inr in Hrun as (? & ? & ? & ? & Hrun & ->)).
  injection Hrun as <- <-.
  repeat match goal with
  | H : raise_if _ _ = (_, inr _) |- _ => apply raise_if_inr in H as [H ->]
  | H : access _ _ = (_, inr _) |- _ => apply access_inr in H as [-> ->]
  end.
  match goal with
  | H : get_states_column_names _ _ _ = (_, inr ?hp) |- _ =>
      destruct hp as [header dp];
      apply states_column_names_start in H as (Htake & _ & _)
  end.
  cbn [resolve_el resolve_vib states_header only_with def_path states_path
       trans_paths fst snd].
  repeat match goal with
  | H : negb _ = false |- _ => apply negb_false_iff in H
  end.
  match goal with
  | H : (negb (length (kw_resolve_el kw) =? 0)%nat
         || negb (length (kw_resolve_vib kw) =? 0)%nat) = true |- _ =>
      rename H into Hres
  end.
  match goal with
  | H : intersects (kw_resolve_el kw) (kw_resolve_vib kw) = false |- _ =>
      rename H into Hdisj
  end.
  match goal with
  | H : intersects (kw_resolve_el kw ++ kw_resolve_vib kw) _ = false |- _ =>
      rename H into Hmand
  end.
  match goal with
  | H : issubset (kw_resolve_el kw ++ kw_resolve_vib kw) _ = true |- _ =>
      rename H into Hsub
  end.
  match goal with
  | H : issubset (map fst (kw_only_with kw)) _ = true |- _ =>
      rename H into Honly
  end.
  split.
  { destruct (kw_resolve_el kw); [|by left].
    destruct (kw_resolve_vib kw); [done|by right]. }
  split; [intros q; by apply intersects_false|].
  split; [done|].
  split.
  { intros q Hq. pose proof (issubset_elem _ _ q Hsub Hq) as Hav.
    apply elem_of_difference_list in Hav as [Hin Hnot].
    split; [by apply after_mandatory|done]. }
  split.
  { intros q Hq. pose proof (issubset_elem _ _ q Honly Hq) as Hav.
    apply elem_of_app in Hav as [Hav|Hav].
    - apply elem_of_difference_list in Hav as [Hin Hnot].
      right. split; [by apply after_mandatory|done].
    - left. by apply list_elem_of_singleton in Hav. }
  repeat match goal with
  | H : (_ =? _)%Z = true |- _ => apply Z.eqb_eq in H
  | H : (_ =? _)%nat = false |- _ => apply Nat.eqb_neq in H
  end.
  split; [done|]. split; [done|]. split; [done|].
  match goal with
  | H : length ?tp <> 0%nat |- _ => destruct tp as [|p tp']; [done|]
  end.
  exists p. split; [done|].
  match goal with
  | H : (_ || _) = true |- _ =>
      apply orb_true_iff in H as [H|H]; apply Z.eqb_eq in H;
      [by left|by right]
  end.
Qed.

(** X9. What an input that was constructed without an exception guarantees:
    a resolve list is there, the two lists share no label, the header
    starts with the four fixed columns, every resolved label is a column
    after them that is not a mandatory one, every key of [only_with] is
    such a column or ["J"], the definition file and the states file exist,
    there is a transitions file, the states file has as many columns as
    the header, and the first transitions file has three or four. *)
Theorem MoleculeInput_validated (molecule_formula : string)
    (kw : kwargs V) t mi :
  MoleculeInput_init root world molecule_formula kw = (t, inr mi) ->
  (resolve_el mi <> [] \/ resolve_vib mi <> [])
  /\ (forall q, q ∈ resolve_el mi -> q ∉ resolve_vib mi)
  /\ take 4 (states_header mi) = ["i"; "E"; "g_tot"; "J"]
  /\ (forall q, q ∈ resolve_el mi ++ resolve_vib mi ->
        q ∈ drop 4 (states_header mi) /\ q ∉ mandatory_columns)
  /\ (forall q, q ∈ map fst (only_with mi) ->
        q = "J" \/ (q ∈ drop 4 (states_header mi) /\ q ∉ mandatory_columns))
  /\ is_file world (def_path mi) = true
  /\ is_file world (states_path mi) = true
  /\ get_num_columns world (states_path mi)
     = Z.of_nat (length (states_header mi))
  /\ (exists p, head (trans_paths mi) = Some p
       /\ (get_num_columns world p = 3 \/ get_num_columns world p = 4)).
Proof. apply MoleculeInput_init_checked. Qed.

(** ** The order of the accesses *)

Lemma in_order_ret {A} (a : A) : in_order [] (ret a).
Proof. by split. Qed.

Lemma in_order_access {A B} op (a : A) (k : A -> IO B) canon :
  in_order canon (k a) -> in_order (op :: canon) (bind (access op a) k).
Proof.
  unfold in_order. simpl. destruct (k a) as [t r]. simpl.
  intros [Hpre Hall]. split; [by apply prefix_cons|].
  intros b Hb. f_equal. by eapply Hall.
Qed.

Lemma in_order_raise_if {B} cond why (k : unit -> IO B) canon :
  in_order canon (k tt) -> in_order canon (bind (raise_if cond why) k).
Proof.
  destruct cond; [|by rewrite bind_raise_if_false].
  intros _. split; [apply prefix_nil|done].
Qed.

Lemma in_order_header {B} explicit sp
    (k : list string * option DefParser -> IO B) canon :
  (forall hp, in_order canon (k hp)) ->
  in_order (match explicit with
            | None => [ParseDefFile sp]
            | Some _ => []
            end ++ canon)
    (bind (get_states_column_names world explicit sp) k).
Proof.
  intros Hk. unfold get_states_column_names. destruct explicit as [h|].
  - simpl app. destruct (negb _).
    + split; [apply prefix_nil|done].
    + simpl. specialize (Hk (h, None)). by destruct (k (h, None)).
  - simpl app. destruct (parse_def world sp) as [dp|]; simpl.
    + match goal with |- in_order _ (let '(t', r) := k ?hp in _) =>
        specialize (Hk hp); destruct (k hp) as [t r] end.
      destruct Hk as [Hpre Hall]. split; [by apply prefix_cons|].
      simpl. intros b Hb. f_equal. by eapply Hall.
    + split; [|done]. apply prefix_cons, prefix_nil.
Qed.

Lemma MoleculeInput_init_in_order (molecule_formula : string)
    (kw : kwargs V) :
  in_order (all_accesses root world kw)
    (MoleculeInput_init root world molecule_formula kw).
Proof.
  unfold MoleculeInput_init, all_accesses. cbv zeta.
  repeat first
    [ apply in_order_raise_if
    | apply in_order_access
    | apply in_order_header; intros ?
    | apply in_order_ret ].
Qed.

(** X10. The constructor goes to the file system in one order and stops at the
    first check that fails: the accesses of any run are the first of the
    list [all_accesses], and of a run that yields an input all of it.  The
    definition parser is not in the list when the configuration gives a
    states header. *)
Theorem MoleculeInput_accesses (molecule_formula : string) (kw : kwargs V) :
  let run := MoleculeInput_init root world molecule_formula kw in
  run.1 `prefix_of` all_accesses root world kw
  /\ (forall mi, run.2 = inr mi -> run.1 = all_accesses root world kw)
  /\ (forall h p, kw_states_header kw = Some h -> ParseDefFile p ∉ run.1).
Proof.
  destruct (MoleculeInput_init_in_order molecule_formula kw) as [Hpre Hall].
  split; [done|]. split; [done|].
  intros h p Hh Hin. destruct Hpre as [rest Hrest].
  assert (Hcanon : ParseDefFile p ∈ all_accesses root world kw).
  { rewrite Hrest. apply elem_of_app. by left. }
  unfold all_accesses in Hcanon. rewrite Hh in Hcanon. cbv zeta in Hcanon.
  simpl in Hcanon.
  repeat (apply elem_of_cons in Hcanon as [?|Hcanon]; [done|]).
  by apply elem_of_nil in Hcanon.
Qed.

(** ** get_all_inputs *)


Lemma accesses_cons f (kw : kwargs V) entries :
  accesses root world ((f, kw) :: entries)
  = (MoleculeInput_init root world f kw).1 ++ accesses root world entries.
Proof. reflexivity. Qed.


Lemma get_all_inputs_loop_strict total (before : list (string * kwargs V))
    after all_inputs num trace out :
  (forall entry, entry ∈ before ->
     exists mi, (construct root world entry).2 = inr mi) ->
  exists all_inputs',
    get_all_inputs_loop root world false total (before ++ after) all_inputs
      num trace out
    = get_all_inputs_loop root world false total after all_inputs'
        num (trace ++ accesses root world before) out.
Proof.
  revert all_inputs trace.
  induction before as [|[f kw] before IH]; intros all_inputs trace Hok.
  - exists all_inputs. simpl. by rewrite app_nil_r.
  - rewrite accesses_cons. simpl app. cbn [get_all_inputs_loop].
    destruct (Hok (f, kw)) as [mi Hmi]; [left|].
    unfold construct in Hmi. simpl in Hmi.
    destruct (MoleculeInput_init root world f kw) as [t r]. simpl in Hmi.
    subst r. cbn [fst].
    destruct (IH (<[f := Some mi]> all_inputs) (trace ++ t)) as [m' ->];
      [intros; apply Hok; by right|].
    exists m'. by rewrite <- app_assoc.
Qed.


(** X12. Without [bypass_exceptions] the call stops at the first formula whose
    constructor raises: it raises that exception, it has printed nothing,
    and it has not gone to the file system for the formulas that
    follow. *)
Theorem get_all_inputs_strict (before : list (string * kwargs V))
    entry after e :
  (forall x, x ∈ before -> exists mi, (construct root world x).2 = inr mi) ->
  (construct root world entry).2 = inl e ->
  get_all_inputs root world (before ++ entry :: after) false
  = (accesses root world (before ++ [entry]), [], inl e).
Proof.
  intros Hok Hfail. unfold get_all_inputs.
  destruct (get_all_inputs_loop_strict (length (before ++ entry :: after))
              before (entry :: after) ∅ 0%nat [] [] Hok) as [m' ->].
  destruct entry as [f kw]. unfold construct in Hfail. simpl in Hfail.
  assert (Hacc : accesses root world (before ++ [(f, kw)])
                 = accesses root world before
                   ++ (MoleculeInput_init root world f kw).1).
  { unfold accesses. rewrite flat_map_app. simpl. by rewrite app_nil_r. }
  rewrite Hacc. cbn [get_all_inputs_loop].
  destruct (MoleculeInput_init root world f kw) as [t r].
  simpl in Hfail. by subst r.
Qed.

End ResolverMore.

Section ResolverMoreExamples.

Import ReadInputs.

Lemma MoleculeInput_accesses_witness :
  (MoleculeInput_init Examples.EXOMOL_DATA_DIR Examples.fs "CaH"
     Examples.kw_only_J).1
  = all_accesses Examples.EXOMOL_DATA_DIR Examples.fs Examples.kw_only_J.
Proof.
  assert (Hrun : exists mi,
            (MoleculeInput_init Examples.EXOMOL_DATA_DIR Examples.fs "CaH"
               Examples.kw_only_J).2 = inr mi).
  { eexists. vm_compute. reflexivity. }
  destruct Hrun as [mi Hmi].
  exact (proj1 (proj2 (MoleculeInput_accesses Examples.EXOMOL_DATA_DIR
                         Examples.fs "CaH" Examples.kw_only_J)) mi Hmi).
Defined.

Lemma MoleculeInput_validated_witness :
  exists t mi,
    MoleculeInput_init Examples.EXOMOL_DATA_DIR Examples.fs "CaH"
      Examples.kw_only_J = (t, inr mi)
    /\ take 4 (states_header mi) = ["i"; "E"; "g_tot"; "J"]
    /\ (forall q, q ∈ resolve_el mi -> q ∉ resolve_vib mi).
Proof.
  assert (Hrun : exists t mi,
            MoleculeInput_init Examples.EXOMOL_DATA_DIR Examples.fs "CaH"
              Examples.kw_only_J = (t, inr mi)).
  { do 2 eexists. vm_compute. reflexivity. }
  destruct Hrun as (t & mi & Hrun).
  exists t, mi. split; [exact Hrun|].
  destruct (MoleculeInput_validated Examples.EXOMOL_DATA_DIR Examples.fs
              "CaH" Examples.kw_only_J t mi Hrun)
    as (_ & Hdisj & Htake & _).
  by split.
Defined.

Lemma get_all_inputs_strict_witness :
  get_all_inputs Examples.EXOMOL_DATA_DIR Examples.fs
    ([("A", Examples.kw_only_J)]
     ++ ("B", Examples.kw_overlap) :: [("C", Examples.kw_from_def)]) false
  = (accesses Examples.EXOMOL_DATA_DIR Examples.fs
       ([("A", Examples.kw_only_J)] ++ [("B", Examples.kw_overlap)]),
     [], inl (MoleculeInputError CommonResolveValues)).
Proof.
  apply (get_all_inputs_strict Examples.EXOMOL_DATA_DIR Examples.fs
           [("A", Examples.kw_only_J)] ("B", Examples.kw_overlap)
           [("C", Examples.kw_from_def)]).
  - intros x Hx. apply list_elem_of_singleton in Hx. subst x.
    eexists. vm_compute. reflexivity.
  - vm_compute. reflexivity.
Defined.

End ResolverMoreExamples.

(* ===================================================================== *)
(** * From the input to the processor *)
(* ===================================================================== *)

Section InputToProcessor.

Import ProcessDataset.

Context {V : Type} {V_eq_dec : EqDecision V} {V_countable : Countable V}.
Variable root : ReadInputs.path.
Variable world : ReadInputs.filesystem.

Lemma issubset_intro (a b : list string) :
  (forall q, q ∈ a -> q ∈ b) -> ReadInputs.issubset a b = true.
Proof.
  intros Hsub. apply forallb_forall. intros q Hq.
  apply bool_decide_eq_true, Hsub. by apply list_elem_of_In.
Qed.

(** X13. Every input that [MoleculeInput] lets through and that does not filter
    on ["J"] is accepted by [DatasetProcessor]: the processor takes over
    the header, the two resolve lists, the filter and the ceiling, resolves
    the labels of [resolve_el] followed by those of [resolve_vib], and
    starts with no table and with empty maps. *)
Theorem validated_input_accepted (molecule_formula : string)
    (kw : ReadInputs.kwargs V) t mi :
  ReadInputs.MoleculeInput_init root world molecule_formula kw = (t, inr mi) ->
  "J" ∉ map fst (ReadInputs.only_with mi) ->
  DatasetProcessor_init mi
  = inr (mkDatasetProcessor (ReadInputs.formula mi)
           (ReadInputs.states_header mi) (ReadInputs.resolve_el mi)
           (ReadInputs.resolve_vib mi) (ReadInputs.only_with mi)
           (ReadInputs.energy_max mi)
           (ReadInputs.resolve_el mi ++ ReadInputs.resolve_vib mi)
           None ∅ ∅).
Proof.
  intros Hrun HJ.
  destruct (MoleculeInput_init_checked root world _ _ _ _ Hrun)
    as (Hres & _ & _ & Hresolved & Honly & _).
  unfold DatasetProcessor_init.
  assert (Hne : (length (ReadInputs.resolve_el mi) =? 0)%nat
                && (length (ReadInputs.resolve_vib mi) =? 0)%nat = false).
  { destruct Hres as [Hr|Hr];
      [destruct (ReadInputs.resolve_el mi)
      |destruct (ReadInputs.resolve_vib mi)]; try done.
    by rewrite andb_false_r. }
  rewrite Hne.
  assert (Hel : ReadInputs.issubset (ReadInputs.resolve_el mi)
                  (drop 4 (ReadInputs.states_header mi)) = true).
  { apply issubset_intro. intros q Hq. apply Hresolved, elem_of_app.
    by left. }
  assert (Hvib : ReadInputs.issubset (ReadInputs.resolve_vib mi)
                   (drop 4 (ReadInputs.states_header mi)) = true).
  { apply issubset_intro. intros q Hq. apply Hresolved, elem_of_app.
    by right. }
  assert (How : ReadInputs.issubset (map fst (ReadInputs.only_with mi))
                  (drop 4 (ReadInputs.states_header mi)) = true).
  { apply issubset_intro. intros q Hq.
    destruct (Honly q Hq) as [->|[? _]]; done. }
  cbn [find snd]. by rewrite Hel, Hvib, How.
Qed.

End InputToProcessor.

Lemma validated_input_accepted_witness :
  exists t mi dp,
    ReadInputs.MoleculeInput_init Examples.EXOMOL_DATA_DIR Examples.fs "CaH"
      Examples.kw_overlap_free = (t, inr mi)
    /\ ProcessDataset.DatasetProcessor_init mi = inr dp
    /\ ProcessDataset.resolved_quanta dp = ["v"].
Proof.
  assert (Hrun : exists t mi,
            ReadInputs.MoleculeInput_init Examples.EXOMOL_DATA_DIR
              Examples.fs "CaH" Examples.kw_overlap_free = (t, inr mi)
            /\ ReadInputs.only_with mi = []
            /\ ReadInputs.resolve_el mi = []
            /\ ReadInputs.resolve_vib mi = ["v"]).
  { do 2 eexists. split; [vm_compute; reflexivity|]. by vm_compute. }
  destruct Hrun as (t & mi & Hrun & How & Hel & Hvib).
  exists t, mi. eexists. split; [exact Hrun|]. split.
  - apply (validated_input_accepted Examples.EXOMOL_DATA_DIR Examples.fs
             "CaH" Examples.kw_overlap_free t mi Hrun).
    rewrite How. apply not_elem_of_nil.
  - simpl. by rewrite Hel, Hvib.
Defined.

(* ===================================================================== *)
(** * More on the state-lumping engine *)
(* ===================================================================== *)

Section GroupAggregate.

Import ProcessDataset.

Context {V : Type} {V_eq_dec : EqDecision V} {V_countable : Countable V}.
Variable self : DatasetProcessor V.

Implicit Types (r : state_row V) (df : list (state_row V)).

Lemma foldl_min_spec (rows : list (state_row V)) (m0 : Q) :
  let m := foldl (fun m r' => if Qle_bool m (E r') then m else E r') m0 rows in
  (m <= m0)%Q /\ (forall r, r ∈ rows -> (m <= E r)%Q)
  /\ (m = m0 \/ exists r, r ∈ rows /\ m = E r).
Proof.
  revert m0. induction rows as [|r rows IH]; intros m0; simpl.
  - split; [apply Qle_refl|]. split; [by intros ? ?%elem_of_nil|by left].
  - destruct (Qle_bool m0 (E r)) eqn:Hle.
    + destruct (IH m0) as (H1 & H2 & H3). apply Qle_bool_iff in Hle.
      split; [done|]. split.
      * intros r' [->|Hr']%elem_of_cons; [|by apply H2].
        by eapply Qle_trans.
      * destruct H3 as [?|(r' & ? & ?)]; [by left|right].
        exists r'. split; [by right|done].
    + destruct (IH (E r)) as (H1 & H2 & H3).
      assert (Hlt : (E r <= m0)%Q).
      { apply Qlt_le_weak, Qnot_le_lt. rewrite <- Qle_bool_iff. congruence. }
      split; [by eapply Qle_trans|]. split.
      * intros r' [->|Hr']%elem_of_cons; [done|by apply H2].
      * right. destruct H3 as [->|(r' & ? & ?)].
        -- exists r. split; [left|done].
        -- exists r'. split; [by right|done].
Qed.

Lemma E_min_spec df m :
  E_min df = Some m ->
  (forall r, r ∈ df -> (m <= E r)%Q) /\ exists r, r ∈ df /\ m = E r.
Proof.
  destruct df as [|r0 df]; [done|]. simpl. intros [= <-].
  destruct (foldl_min_spec df (E r0)) as (H1 & H2 & H3). split.
  - intros r [->|Hr]%elem_of_cons; [done|by apply H2].
  - destruct H3 as [->|(r & ? & ?)].
    + exists r0. split; [left|done].
    + exists r. split; [by right|done].
Qed.

Lemma find_first {A} (f : A -> bool) (l : list A) x :
  x ∈ l -> f x = true ->
  exists pre y post,
    find f l = Some y /\ l = pre ++ y :: post /\ f y = true
    /\ forall z, z ∈ pre -> f z = false.
Proof.
  induction l as [|a l IH]; [by intros ?%elem_of_nil|].
  intros Hx Hfx. simpl. destruct (f a) eqn:Hfa.
  - exists [], a, l. by repeat split; [|intros ? ?%elem_of_nil].
  - apply elem_of_cons in Hx as [->|Hx]; [congruence|].
    destruct (IH Hx Hfx) as (pre & y & post & Hfind & -> & Hy & Hpre).
    exists (a :: pre), y, post. repeat split; try done.
    intros z [->|Hz]%elem_of_cons; [done|by apply Hpre].
Qed.

Lemma group_selected_row df :
  df <> [] ->
  exists pre r post,
    df = pre ++ r :: post
    /\ lumped_J (series self df) = Some (J r)
    /\ (forall r', r' ∈ df -> (E r <= E r')%Q)
    /\ (forall r', r' ∈ pre -> (E r < E r')%Q).
Proof.
  intros Hne. destruct df as [|r0 df']; [done|].
  unfold series, _process_state_group.
  destruct (E_min (r0 :: df')) as [m|] eqn:Hmin; [|done].
  destruct (E_min_spec _ _ Hmin) as [Hlow (rm & Hrm & Hm)].
  destruct (find_first (fun r => Qeq_bool (E r) m) (r0 :: df') rm Hrm)
    as (pre & r & post & Hfind & Hsplit & Hr & Hpre).
  { subst m. apply Qeq_bool_refl. }
  exists pre, r, post. rewrite Hfind. cbn [snd lumped_J fmap option_fmap
    option_map default from_option id].
  apply Qeq_bool_iff in Hr.
  split; [done|]. split; [done|]. split.
  - intros r' Hr'. rewrite Hr. by apply Hlow.
  - intros r' Hr'. rewrite Hr.
    assert (Hin : r' ∈ r0 :: df').
    { rewrite Hsplit. apply elem_of_app. by left. }
    destruct (proj1 (Qle_lteq _ _) (Hlow r' Hin)) as [Hlt|Heq]; [exact Hlt|].
    specialize (Hpre r' Hr').
    assert (Qeq_bool (E r') m = true); [|congruence].
    apply Qeq_bool_iff. by symmetry.
Qed.

(** X16. The J of a lump is the J of its first row of lowest energy: no row of
    the group has a lower energy than that row, and the rows before it
    have a higher one. *)
Theorem selected_J_is_at_lowest_energy df :
  df <> [] ->
  exists pre r post,
    df = pre ++ r :: post
    /\ lumped_J (series self df) = Some (J r)
    /\ (forall r', r' ∈ df -> (E r <= E r')%Q)
    /\ (forall r', r' ∈ pre -> (E r < E r')%Q).
Proof. apply group_selected_row. Qed.








End GroupAggregate.

Lemma selected_J_is_at_lowest_energy_witness :
  exists pre r post,
    Examples.group_v0 = pre ++ r :: post
    /\ ProcessDataset.lumped_J (series Examples.processor Examples.group_v0)
       = Some (ProcessDataset.J r).
Proof.
  destruct (selected_J_is_at_lowest_energy Examples.processor
              Examples.group_v0) as (pre & r & post & Hsplit & HJ & _).
  - unfold Examples.group_v0. discriminate.
  - by exists pre, r, post.
Defined.


Section GroupFrames.

Import ProcessDataset.

Context {V : Type} {V_eq_dec : EqDecision V} {V_countable : Countable V}.
Variable self : DatasetProcessor V.

Implicit Types (r : state_row V) (df chunk : list (state_row V)).
Implicit Types (k : list V) (lumped frame : gmap (list V) lumped_row).
Implicit Types (l2o : gmap (list V) (gset Z)).









End GroupFrames.

Section TableRows.

Import ProcessDataset.

Context {V : Type} {V_eq_dec : EqDecision V} {V_countable : Countable V}.
Variable self : DatasetProcessor V.

Implicit Types (r : state_row V) (df chunk : list (state_row V)).
Implicit Types (k : list V) (lumped frame : gmap (list V) lumped_row).
Implicit Types (l2o : gmap (list V) (gset Z)).














End TableRows.

Section SecondRun.

Import ProcessDataset.

Context {V : Type} {V_eq_dec : EqDecision V} {V_countable : Countable V}.
Variable self : DatasetProcessor V.



End SecondRun.



(* ===================================================================== *)
(** * The chunks of the transitions *)
(* ===================================================================== *)

Section TransReader.

Import ProcessDataset.

Context {V : Type} {V_eq_dec : EqDecision V} {V_countable : Countable V}.
Context {R : Type}.
Variable root : ReadInputs.path.
Variable world : ReadInputs.filesystem.
Variable read_csv : ReadInputs.path -> list string -> list R.

Lemma chunks_upto_bounded (n fuel : nat) (l : list R) :
  (0 < n)%nat ->
  Forall (fun c => c <> [] /\ (length c <= n)%nat) (chunks_upto fuel n l).
Proof.
  intros Hn. revert l. induction fuel as [|fuel IH]; intros l; [by left|].
  destruct l as [|x l]; [by left|]. cbn [chunks_upto]. constructor.
  - split.
    + destruct n; [lia|done].
    + rewrite length_take. lia.
  - apply IH.
Qed.

Lemma trans_chunks_yielded (n : nat) (paths : list ReadInputs.path)
    (names : list string) :
  (0 < n)%nat ->
  let chunks :=
    flat_map (fun p => load_dataframe_chunks read_csv p n names) paths in
  concat chunks = flat_map (fun p => read_csv p names) paths
  /\ Forall (fun c => c <> [] /\ (length c <= n)%nat) chunks.
Proof.
  intros Hn. induction paths as [|p paths [IH1 IH2]]; simpl.
  - split; [done|by left].
  - split.
    + rewrite concat_app. f_equal; [|exact IH1].
      by apply concat_chunked.
    + apply Forall_app. split; [|exact IH2].
      by apply chunks_upto_bounded.
Qed.

(** X15. For an input that [MoleculeInput] lets through, [trans_chunks] does not
    raise: it names three or four columns, as many as the first [.trans]
    file has, and yields the rows of the [.trans] files in the order of
    the files, in chunks that are not empty and not above the chunk size. *)
Theorem trans_chunks_of_validated_input (molecule_formula : string)
    (kw : ReadInputs.kwargs V) t mi (TRANS_CHUNK_SIZE : nat) :
  ReadInputs.MoleculeInput_init root world molecule_formula kw = (t, inr mi) ->
  (0 < TRANS_CHUNK_SIZE)%nat ->
  exists first column_names chunks,
    head (ReadInputs.trans_paths mi) = Some first
    /\ trans_chunks read_csv (ReadInputs.get_num_columns world)
         TRANS_CHUNK_SIZE (ReadInputs.trans_paths mi)
       = inr (column_names, chunks)
    /\ (column_names = ["i"; "f"; "A_if"]
        \/ column_names = ["i"; "f"; "A_if"; "v_if"])
    /\ Z.of_nat (length column_names) = ReadInputs.get_num_columns world first
    /\ concat chunks
       = flat_map (fun p => read_csv p column_names) (ReadInputs.trans_paths mi)
    /\ Forall (fun c => c <> [] /\ (length c <= TRANS_CHUNK_SIZE)%nat) chunks.
Proof.
  intros Hrun Hn.
  destruct (MoleculeInput_init_checked root world _ _ _ _ Hrun)
    as (_ & _ & _ & _ & _ & _ & _ & _ & first & Hfirst & Hcols).
  exists first. unfold trans_chunks.
  destruct (ReadInputs.trans_paths mi) as [|p paths] eqn:Hpaths; [done|].
  injection Hfirst as ->.
  destruct Hcols as [Hcols|Hcols]; rewrite Hcols; cbn [Z.eqb Pos.eqb negb].
  - eexists _, _. split; [done|]. split; [done|]. split; [by left|].
    split; [done|]. by apply trans_chunks_yielded.
  - eexists _, _. split; [done|]. split; [done|]. split; [by right|].
    split; [done|]. by apply trans_chunks_yielded.
Qed.

End TransReader.

Lemma trans_chunks_of_validated_input_witness :
  exists first column_names chunks,
    head [Examples.trans_path] = Some first
    /\ ProcessDataset.trans_chunks (fun _ _ => [1; 2; 3])
         (ReadInputs.get_num_columns Examples.fs) 2 [Examples.trans_path]
       = inr (column_names, chunks)
    /\ concat chunks = [1; 2; 3].
Proof.
  assert (Hrun : exists t mi,
            ReadInputs.MoleculeInput_init Examples.EXOMOL_DATA_DIR Examples.fs
              "CaH" Examples.kw_only_J = (t, inr mi)
            /\ ReadInputs.trans_paths mi = [Examples.trans_path]).
  { do 2 eexists. split; vm_compute; reflexivity. }
  destruct Hrun as (t & mi & Hrun & Hpaths).
  destruct (trans_chunks_of_validated_input Examples.EXOMOL_DATA_DIR
              Examples.fs (fun _ _ => [1; 2; 3]) "CaH" Examples.kw_only_J
              t mi 2 Hrun)
    as (first & names & chunks & H1 & H2 & _ & _ & H3 & _); [lia|].
  rewrite Hpaths in H1, H2, H3. exists first, names, chunks.
  split; [exact H1|]. split; [exact H2|]. rewrite H3. simpl. done.
Defined.

(* ===================================================================== *)
(** * Where the definition comes from *)
(* ===================================================================== *)

Section RetrievalResults.

Import ParseDef.

Variable http_get_text : string -> string.
Variable read_text : string -> option string.
Variable path_name : string -> string.
Variable py_int : string -> option Z.
Variable py_float : string -> option Q.
Variable formula_natoms : string -> string + Z.

Local Abbreviation parse_exomol_def_here :=
  (parse_exomol_def http_get_text read_text path_name py_int py_float
     formula_natoms).

Lemma parse_def_raw_reported raw file_name raise_warnings ws msg :
  _parse_exomol_def_raw py_int py_float formula_natoms raw file_name
    raise_warnings = (ws, inl (ExomolDefParseError msg)) ->
  formula_error_reported file_name msg
  \/ exists le,
       line_error_reported file_name
         (Z.of_nat (length (split_newline raw ""))) le
       /\ msg = Utils.exn_message le.
Proof.
  intros Hrun.
  apply steady_parse_def_raw in Hrun as (ls' & r0 & Hbody & Hr).
  eapply (steady_parse_body py_int py_float formula_natoms file_name
            raise_warnings) in Hbody as (_ & _ & Herr); [|lia].
  destruct r0 as [[le|msg'| |]|d]; try done; injection Hr as Hmsg.
  - right. exists le. split; [|done]. by apply (Herr (LineError le)).
  - left. subst msg'. by apply (Herr (ExomolDefParseError msg)).
Qed.

Lemma parse_def_raw_silent raw file_name :
  (_parse_exomol_def_raw py_int py_float formula_natoms raw file_name
     false).1 = [].
Proof.
  destruct (_parse_exomol_def_raw py_int py_float formula_natoms raw
              file_name false) as [ws r] eqn:Hrun.
  apply steady_parse_def_raw in Hrun as (ls' & r0 & Hbody & _).
  eapply (steady_parse_body py_int py_float formula_natoms file_name false)
    in Hbody as (_ & Hws & _); [|lia].
  simpl. by apply Hws.
Qed.

(** X8. Where [parse_exomol_def] takes the text from.  With a path it opens
    that file and nothing else, whatever the slugs, and a missing file
    is the error of [open]; without a path it makes one request when the
    three slugs are given and none at all, raising its [ValueError],
    when one is missing or empty.  The warnings are off unless asked for,
    and a parse error names the file by the name of the path or by
    [<iso>__<ds>.def]. *)
Theorem parse_exomol_def_access path molecule_slug isotopologue_slug
    dataset_name raise_warnings :
  let run := parse_exomol_def_here path molecule_slug isotopologue_slug
               dataset_name raise_warnings in
  match path with
  | Some p =>
      run.1 = [Opened p]
      /\ run = parse_exomol_def_here (Some p) None None None raise_warnings
      /\ (read_text p = None <-> run.2 = inl (FileNotFoundError p))
  | None =>
      if truthy_arg molecule_slug && truthy_arg isotopologue_slug
         && truthy_arg dataset_name
      then exists url parsed, run = ([Requested url], inr parsed)
      else run = ([], inl MissingParameters)
  end
  /\ (forall ws r, raise_warnings = false -> run.2 = inr (ws, r) -> ws = [])
  /\ (forall ws msg,
        run.2 = inr (ws, inl (ExomolDefParseError msg)) ->
        let label := def_file_label path_name path isotopologue_slug
                       dataset_name in
        formula_error_reported label msg
        \/ exists n le, line_error_reported label n le
                        /\ msg = Utils.exn_message le).
Proof.
  intros run. subst run. unfold parse_exomol_def, _get_exomol_def_raw.
  destruct path as [p|].
  - destruct (read_text p) as [text|] eqn:Hread; cbn [fst snd].
    + split; [split; [done|split; [done|]]|].
      { split; [done|]. by intros [=]. }
      split.
      * intros ws r -> [= Hrun].
        pose proof (parse_def_raw_silent text (path_name p)) as Hs.
        by rewrite Hrun in Hs.
      * intros ws msg [= Hrun].
        apply parse_def_raw_reported in Hrun as [?|(le & ? & ?)];
          [by left|right]. by eexists _, le.
    + split; [split; [done|split; [done|done]]|].
      split; [by intros ws r _ [=]|by intros ws msg [=]].
  - destruct (truthy_arg molecule_slug && truthy_arg isotopologue_slug
              && truthy_arg dataset_name); cbn [negb fst snd].
    + split; [by eexists _, _|]. split.
      * intros ws r -> [= Hrun].
        match type of Hrun with
        | _parse_exomol_def_raw _ _ _ ?raw ?name _ = _ =>
            pose proof (parse_def_raw_silent raw name) as Hs
        end.
        by rewrite Hrun in Hs.
      * intros ws msg [= Hrun].
        apply parse_def_raw_reported in Hrun as [?|(le & ? & ?)];
          [by left|right]. by eexists _, le.
    + split; [done|]. split; [by intros ws r _ [=]|by intros ws msg [=]].
Qed.

End RetrievalResults.

Lemma parse_exomol_def_access_witness :
  ParseDef.parse_exomol_def (fun _ => "") (fun _ => None) (fun p => p)
    Examples.int Examples.float Examples.formula_natoms
    None (Some "foo") None None false
  = ([], inl ParseDef.MissingParameters).
Proof.
  exact (proj1 (parse_exomol_def_access (fun _ => "") (fun _ => None)
                  (fun p => p) Examples.int Examples.float
                  Examples.formula_natoms None (Some "foo") None None false)).
Defined.

(* ===================================================================== *)
(** * What the definition reader sees of a text *)
(* ===================================================================== *)

Section BlankLines.

Import ParseDef.

Variable py_int : string -> option Z.
Variable py_float : string -> option Q.
Variable formula_natoms : string -> string + Z.
Variables file_name1 file_name2 : string.
Variables raise_warnings1 raise_warnings2 : bool.
Variables n_orig1 n_orig2 : Z.

Lemma canon_lines_drop_blank lines :
  canon_lines lines
  = match drop_blank lines with
    | [] => []
    | l :: rest => Utils.strip l :: canon_lines rest
    end.
Proof.
  induction lines as [|l rest IH]; [done|]. unfold canon_lines in *.
  simpl. destruct (blank l); simpl; [exact IH|done].
Qed.

Lemma same_kind_refl e : same_kind e e.
Proof. by destruct e as [[]| | |]. Qed.

Lemma alike_ret {A} (R : A -> A -> Prop) a1 a2 :
  R a1 a2 -> alike R (ret a1) (ret a2).
Proof. intros HR ls1 ls2 ws1 ws2 Hls. by simpl. Qed.

Lemma alike_raise {A} (R : A -> A -> Prop) e1 e2 :
  same_kind e1 e2 -> alike R (@raise A e1) (@raise A e2).
Proof. intros He ls1 ls2 ws1 ws2 Hls. by simpl. Qed.

Lemma alike_bind {A B} (RA : A -> A -> Prop) (RB : B -> B -> Prop)
    (m1 m2 : M A) (k1 k2 : A -> M B) :
  alike RA m1 m2 ->
  (forall a1 a2, RA a1 a2 -> alike RB (k1 a1) (k2 a2)) ->
  alike RB (bind m1 k1) (bind m2 k2).
Proof.
  intros Hm Hk ls1 ls2 ws1 ws2 Hls. unfold bind.
  specialize (Hm ls1 ls2 ws1 ws2 Hls).
  destruct (m1 ls1 ws1) as [[ls1' ws1'] [e1|a1]];
    destruct (m2 ls2 ws2) as [[ls2' ws2'] [e2|a2]]; try done.
  destruct Hm as [Ha Hls']. by apply Hk.
Qed.

Lemma alike_bind_eq {A B} (RB : B -> B -> Prop)
    (m1 m2 : M A) (k1 k2 : A -> M B) :
  alike eq m1 m2 ->
  (forall a, alike RB (k1 a) (k2 a)) ->
  alike RB (bind m1 k1) (bind m2 k2).
Proof.
  intros Hm Hk. apply (alike_bind eq); [done|]. intros a ? <-. apply Hk.
Qed.

Lemma alike_for_range {A} (n : nat) (i0 : Z) (body1 body2 : Z -> M A) :
  (forall i, alike eq (body1 i) (body2 i)) ->
  alike eq (for_range n i0 body1) (for_range n i0 body2).
Proof.
  intros Hbody. revert i0. induction n as [|n IH]; intros i0; simpl.
  - by apply alike_ret.
  - apply alike_bind_eq; [done|]. intros x.
    apply alike_bind_eq; [done|]. intros xs. by apply alike_ret.
Qed.

Lemma alike_parse_line_raw expected vt :
  alike eq
    (parse_line_raw file_name1 raise_warnings1 n_orig1 expected vt)
    (parse_line_raw file_name2 raise_warnings2 n_orig2 expected vt).
Proof.
  intros ls1 ls2 ws1 ws2 Hls.
  unfold parse_line_raw, Utils.parse_exomol_line.
  rewrite !pop_line_full. rewrite !canon_lines_drop_blank in Hls.
  destruct (drop_blank ls1) as [|l1 rest1];
    destruct (drop_blank ls2) as [|l2 rest2]; try done.
  injection Hls as Hl Hrest. simpl. rewrite <- Hl.
  destruct (Utils.split_hash_space (Utils.strip l1))
    as [|val [|comment [|? ?]]]; simpl; try done.
  destruct vt as [conv|]; [destruct (conv (Utils.strip val))|]; by simpl.
Qed.

Lemma alike_parse_line c :
  alike eq (parse_line file_name1 raise_warnings1 n_orig1 c)
    (parse_line file_name2 raise_warnings2 n_orig2 c).
Proof.
  apply alike_bind_eq; [apply alike_parse_line_raw|].
  intros. by apply alike_ret.
Qed.

Lemma alike_parse_line_int c :
  alike eq (parse_line_int py_int file_name1 raise_warnings1 n_orig1 c)
    (parse_line_int py_int file_name2 raise_warnings2 n_orig2 c).
Proof.
  apply alike_bind_eq; [apply alike_parse_line_raw|].
  intros. by apply alike_ret.
Qed.

Lemma alike_parse_line_float c :
  alike eq (parse_line_float py_float file_name1 raise_warnings1 n_orig1 c)
    (parse_line_float py_float file_name2 raise_warnings2 n_orig2 c).
Proof.
  apply alike_bind_eq; [apply alike_parse_line_raw|].
  intros. by apply alike_ret.
Qed.

Lemma alike_float_of s : alike eq (float_of py_float s) (float_of py_float s).
Proof.
  unfold float_of. destruct (py_float s); [by apply alike_ret|].
  by apply alike_raise.
Qed.

Lemma alike_int_of s : alike eq (int_of py_int s) (int_of py_int s).
Proof.
  unfold int_of. destruct (py_int s); [by apply alike_ret|].
  by apply alike_raise.
Qed.

Lemma alike_parse_body raw1 raw2 :
  alike (fun d1 d2 => d2 = with_raw_text raw2 d1)
    (parse_body py_int py_float formula_natoms file_name1 raise_warnings1
       n_orig1 raw1)
    (parse_body py_int py_float formula_natoms file_name2 raise_warnings2
       n_orig2 raw2).
Proof.
  unfold parse_body.
  repeat first
    [ apply alike_ret; reflexivity
    | apply alike_parse_line
    | apply alike_parse_line_int
    | apply alike_parse_line_float
    | apply alike_float_of
    | apply alike_int_of
    | apply alike_for_range; intros ?
    | apply alike_bind_eq; [|intros ?]
    | match goal with
      | |- alike _ (match formula_natoms ?s with _ => _ end) _ =>
          destruct (formula_natoms s); [by apply alike_raise|]
      | |- alike _ (if bool_decide ?P then _ else _) _ =>
          destruct (bool_decide P); [|by apply alike_raise]
      | |- alike _ (match split_ws ?s ?c with _ => _ end) _ =>
          destruct (split_ws s c); [by apply alike_raise|]
      end ].
Qed.

End BlankLines.

Section BlankLinesResult.

Import ParseDef.

Variable py_int : string -> option Z.
Variable py_float : string -> option Q.
Variable formula_natoms : string -> string + Z.

(** X4. The definition reader sees of a text only its lines that are not
    blank, stripped.  Two texts with the same such lines, even under
    different file names and warning settings, are both parsed, to
    definitions that differ in [raw_text] alone, or both refused, with the
    same kind of exception. *)
Theorem only_stripped_lines_matter raw1 raw2 file_name1 file_name2
    raise_warnings1 raise_warnings2 :
  canon_lines (split_newline raw1 "") = canon_lines (split_newline raw2 "") ->
  match
    (_parse_exomol_def_raw py_int py_float formula_natoms raw1 file_name1
       raise_warnings1).2,
    (_parse_exomol_def_raw py_int py_float formula_natoms raw2 file_name2
       raise_warnings2).2
  with
  | inr d1, inr d2 => d2 = with_raw_text raw2 d1
  | inl e1, inl e2 => same_kind e1 e2
  | _, _ => False
  end.
Proof.
  intros Hls. unfold _parse_exomol_def_raw, catch_line_errors.
  pose proof (alike_parse_body py_int py_float formula_natoms
                file_name1 file_name2 raise_warnings1 raise_warnings2
                (Z.of_nat (length (split_newline raw1 "")))
                (Z.of_nat (length (split_newline raw2 "")))
                raw1 raw2 _ _ [] [] Hls) as Hsim.
  destruct (parse_body _ _ _ file_name1 _ _ _ _ _) as [[ls1 ws1] r1].
  destruct (parse_body _ _ _ file_name2 _ _ _ _ _) as [[ls2 ws2] r2].
  destruct r1 as [[[]| | |]|d1]; destruct r2 as [[[]| | |]|d2];
    simpl in *; try done. by destruct Hsim.
Qed.

End BlankLinesResult.

Lemma only_stripped_lines_matter_witness :
  match
    (ParseDef._parse_exomol_def_raw Examples.int Examples.float
       Examples.formula_natoms (Examples.unlines Examples.def_lines)
       "a.def" true).2,
    (ParseDef._parse_exomol_def_raw Examples.int Examples.float
       Examples.formula_natoms
       (Examples.unlines
          (flat_map (fun l => [""; "  " +:+ l; "   "]) Examples.def_lines))
       "b.def" false).2
  with
  | inr d1, inr d2 =>
      d2 = with_raw_text
             (Examples.unlines
                (flat_map (fun l => [""; "  " +:+ l; "   "])
                   Examples.def_lines)) d1
  | inl e1, inl e2 => same_kind e1 e2
  | _, _ => False
  end.
Proof.
  apply (only_stripped_lines_matter Examples.int Examples.float
           Examples.formula_natoms).
  vm_compute. reflexivity.
Defined.

(* ===================================================================== *)
(** * What the processor accepts *)
(* ===================================================================== *)

Section ProcessorAcceptance.

Import ProcessDataset.

Context {V : Type} {V_eq_dec : EqDecision V} {V_countable : Countable V}.

Lemma issubset_iff (a b : list string) :
  ReadInputs.issubset a b = true <-> forall q, q ∈ a -> q ∈ b.
Proof.
  split.
  - intros Hsub q. by apply issubset_elem.
  - apply issubset_intro.
Qed.

Lemma DatasetProcessor_init_bool (mi : ReadInputs.MoleculeInput V) :
  let header := drop 4 (ReadInputs.states_header mi) in
  ((exists self, DatasetProcessor_init mi = inr self) <->
   negb ((length (ReadInputs.resolve_el mi) =? 0)%nat
         && (length (ReadInputs.resolve_vib mi) =? 0)%nat)
   && ReadInputs.issubset (ReadInputs.resolve_el mi) header
   && ReadInputs.issubset (ReadInputs.resolve_vib mi) header
   && ReadInputs.issubset (map fst (ReadInputs.only_with mi)) header = true)
  /\ ((exists self, DatasetProcessor_init mi = inr self)
      \/ exists why, DatasetProcessor_init mi = inl (MoleculeInputError why)).
Proof.
  unfold DatasetProcessor_init. cbv zeta. cbn [find fst snd].
  destruct ((length (ReadInputs.resolve_el mi) =? 0)%nat
            && (length (ReadInputs.resolve_vib mi) =? 0)%nat);
    cbn [negb andb].
  { split; [|right; by eexists]. split; [by intros [? [=]]|done]. }
  destruct (ReadInputs.issubset (ReadInputs.resolve_el mi) _);
    cbn [negb andb];
    [|split; [|right; by eexists]; split; [by intros [? [=]]|done]].
  destruct (ReadInputs.issubset (ReadInputs.resolve_vib mi) _);
    cbn [negb andb];
    [|split; [|right; by eexists]; split; [by intros [? [=]]|done]].
  destruct (ReadInputs.issubset (map fst (ReadInputs.only_with mi)) _);
    cbn [negb andb];
    [|split; [|right; by eexists]; split; [by intros [? [=]]|done]].
  split; [|left; by eexists]. split; [done|by eexists].
Qed.

(** X14. [DatasetProcessor] accepts an input exactly when one of the two
    resolve lists is not empty and every label of the two lists and every
    key of [only_with] is a column of the header after the first four; it
    raises [MoleculeInputError] otherwise, and nothing else. *)
Theorem DatasetProcessor_init_accepts (mi : ReadInputs.MoleculeInput V) :
  ((exists self, DatasetProcessor_init mi = inr self) <->
   (ReadInputs.resolve_el mi <> [] \/ ReadInputs.resolve_vib mi <> [])
   /\ forall q,
        q ∈ ReadInputs.resolve_el mi ++ ReadInputs.resolve_vib mi
            ++ map fst (ReadInputs.only_with mi) ->
        q ∈ drop 4 (ReadInputs.states_header mi))
  /\ ((exists self, DatasetProcessor_init mi = inr self)
      \/ exists why, DatasetProcessor_init mi = inl (MoleculeInputError why)).
Proof.
  destruct (DatasetProcessor_init_bool mi) as [Hiff Hcases].
  split; [|exact Hcases]. rewrite Hiff.
  rewrite !andb_true_iff, negb_true_iff, andb_false_iff, !issubset_iff.
  assert (Hnil : forall l : list string,
            (length l =? 0)%nat = false <-> l <> []).
  { intros [|? ?]; by split. }
  rewrite !Hnil. split.
  - intros [[[Hne Hel] Hvib] Honly]. split; [done|].
    intros q [Hq|[Hq|Hq]%elem_of_app]%elem_of_app; by auto.
  - intros [Hne Hall]. repeat split; [done|..];
      intros q Hq; apply Hall; rewrite !elem_of_app; by auto.
Qed.

End ProcessorAcceptance.
